(** * Token-classification evaluator: word offsets and label alignment

    A shallow embedding of [src/evaluate/evaluator/token_classification.py]
    (class [TokenClassificationEvaluator]).  Python integers are [Z], Python
    strings are [string] (with [len] the number of characters), Python lists
    are [list], and a raised exception is an explicit outcome. *)

From Stdlib Require Import ZArith QArith List String Ascii Bool Lia Sorted.
Import ListNotations.
Local Open Scope string_scope.
Local Open Scope list_scope.
Local Open Scope Z_scope.

Set Default Goal Selector "!".

(** ** Python outcomes *)

(** The built-in exceptions the evaluator can raise.  None of them carries a
    payload chosen by this class: [IndexError] and [KeyError] come from the
    subscript operator, [TypeError] from [str.join] and from iterating,
    [FileNotFoundError] from reading a file. *)
Inductive exn : Type :=
| IndexError
| KeyError
| TypeError
| ValueError
| NotImplementedError
| FileNotFoundError.

(** The outcome of running a piece of Python: a value, a raised exception, or
    [Diverge] when the bound given to a [while] loop is used up. *)
Inductive outcome (A : Type) : Type :=
| Ok (a : A)
| Raise (e : exn)
| Diverge.

Arguments Ok {A} a.
Arguments Raise {A} e.
Arguments Diverge {A}.

Definition bind {A B : Type} (m : outcome A) (k : A -> outcome B) : outcome B :=
  match m with
  | Ok a => k a
  | Raise e => Raise e
  | Diverge => Diverge
  end.

Declare Scope py_scope.
Delimit Scope py_scope with py.
Notation "x <- m ;; k" := (bind m (fun x => k))
  (at level 61, m at next level, right associativity) : py_scope.
Notation "' p <- m ;; k" := (bind m (fun p => k))
  (at level 61, p pattern, m at next level, right associativity) : py_scope.
Local Open Scope py_scope.

(** [l[i]] for an index that is never negative: [IndexError] past the end. *)
Definition getitem {A : Type} (l : list A) (i : nat) : outcome A :=
  match nth_error l i with
  | Some a => Ok a
  | None => Raise IndexError
  end.

(** [len(s)] of a string. *)
Definition len (s : string) : Z := Z.of_nat (String.length s).

(** [sep.join(words)]. *)
Definition join (sep : string) (words : list string) : string :=
  String.concat sep words.

(** [s[a:b]] for bounds that are not negative. *)
Definition slice (s : string) (a b : Z) : string :=
  substring (Z.to_nat a) (Z.to_nat (b - a)) s.

(** ** Pipeline predictions *)

(** One record of the output of a [TokenClassificationPipeline]: the dict
    [{"entity", "score", "index", "word", "start", "end"}].  ["start"] is an
    integer: the class supports only pipelines that report it. *)
Module Prediction.
Record t : Type := mk {
  entity : string;
  score : Q;
  index : Z;
  word : string;
  start : Z;
  end_ : Z
}.
End Prediction.

(** ** [words_to_offsets] *)

(** One pass of the body of [for word in words]: the state is the list
    [offsets] built so far and the cursor [start]. *)
Definition offsets_step (join_by : string) (st : list (Z * Z) * Z) (word : string)
  : list (Z * Z) * Z :=
  let '(offsets, start) := st in
  let end_ := start + len word - 1 in
  (offsets ++ [(start, end_)], end_ + len join_by + 1).

Definition offsets_loop (join_by : string) (words : list string)
  (st : list (Z * Z) * Z) : list (Z * Z) * Z :=
  fold_left (offsets_step join_by) words st.

Definition words_to_offsets (words : list string) (join_by : string) : list (Z * Z) :=
  fst (offsets_loop join_by words ([], 0)).

(** ** [predictions_processor] *)

(** [while prediction[token_index]["start"] < word_offset[0]: token_index += 1],
    run for at most [fuel] evaluations of the test.  The result is the value of
    [token_index] on leaving the loop. *)
Fixpoint skip_loop (fuel : nat) (prediction : list Prediction.t) (token_index : nat)
  (word_start : Z) : outcome nat :=
  match fuel with
  | O => Diverge
  | S fuel' =>
      p <- getitem prediction token_index ;;
      if Prediction.start p <? word_start
      then skip_loop fuel' prediction (S token_index) word_start
      else Ok token_index
  end.

(** The test of the loop reads one more element on every pass and the subscript
    raises past the end, so [S (length prediction)] evaluations always suffice. *)
Definition skip_fuel (prediction : list Prediction.t) : nat :=
  S (List.length prediction).

(** [for word_offset in words_offsets: ...] with the state [token_index],
    [pred_processed]. *)
Fixpoint words_loop (prediction : list Prediction.t) (words_offsets : list (Z * Z))
  (token_index : nat) (pred_processed : list string) : outcome (list string) :=
  match words_offsets with
  | [] => Ok pred_processed
  | word_offset :: rest =>
      token_index <- skip_loop (skip_fuel prediction) prediction token_index
                       (fst word_offset) ;;
      p <- getitem prediction token_index ;;
      if Prediction.start p >? fst word_offset
      then words_loop prediction rest token_index (pred_processed ++ ["O"])
      else
        p <- getitem prediction token_index ;;
        if Prediction.start p =? fst word_offset
        then
          p <- getitem prediction token_index ;;
          words_loop prediction rest token_index
            (pred_processed ++ [Prediction.entity p])
        else words_loop prediction rest token_index pred_processed
  end.

(** [enumerate(l)]. *)
Definition enumerate {A : Type} (l : list A) : list (nat * A) :=
  combine (seq 0 (List.length l)) l.

(** [for i, prediction in enumerate(predictions): ...] with the state [preds]. *)
Fixpoint rows_loop (rows : list (nat * list Prediction.t)) (words : list (list string))
  (join_by : string) (preds : list (list string)) : outcome (list (list string)) :=
  match rows with
  | [] => Ok preds
  | (i, prediction) :: rest =>
      ws <- getitem words i ;;
      let words_offsets := words_to_offsets ws join_by in
      pred_processed <- words_loop prediction words_offsets 0 [] ;;
      rows_loop rest words join_by (preds ++ [pred_processed])
  end.

(** The method returns the dict [{"predictions": preds}]; the model returns
    its only value. *)
Definition predictions_processor (predictions : list (list Prediction.t))
  (words : list (list string)) (join_by : string) : outcome (list (list string)) :=
  rows_loop (enumerate predictions) words join_by [].

(** ** Recursive reading of the offsets loop *)

(** The spans the loop appends when it is entered with cursor [start]. *)
Fixpoint spans_from (join_by : string) (start : Z) (words : list string)
  : list (Z * Z) :=
  match words with
  | [] => []
  | word :: rest =>
      (start, start + len word - 1)
        :: spans_from join_by (start + len word - 1 + len join_by + 1) rest
  end.

(** The cursor [start] after the loop has consumed [words]. *)
Fixpoint cursor_after (join_by : string) (start : Z) (words : list string) : Z :=
  match words with
  | [] => start
  | word :: rest =>
      cursor_after join_by (start + len word - 1 + len join_by + 1) rest
  end.

(** The text that precedes a word in [join_by.join(pre ++ word :: post)]. *)
Definition text_before (join_by : string) (pre : list string) : string :=
  match pre with
  | [] => ""
  | _ :: _ => join join_by pre ++ join_by
  end%string.

(** The text that follows a word in [join_by.join(pre ++ word :: post)]. *)
Definition text_after (join_by : string) (post : list string) : string :=
  match post with
  | [] => ""
  | _ :: _ => join_by ++ join join_by post
  end%string.

(** Earlier spans end before later ones start. *)
Definition ends_before (a b : Z * Z) : Prop := snd a < fst b.

(** Starts in non-decreasing, respectively increasing, order. *)
Definition starts_le (a b : Z * Z) : Prop := fst a <= fst b.
Definition starts_lt (a b : Z * Z) : Prop := fst a < fst b.

(** ** Declarative reading of the aligner *)

(** The predictions left once the leading ones that start before [word_start]
    are skipped. *)
Fixpoint skip_before (word_start : Z) (prediction : list Prediction.t)
  : list Prediction.t :=
  match prediction with
  | [] => []
  | p :: rest =>
      if Prediction.start p <? word_start
      then skip_before word_start rest
      else prediction
  end.

(** The label of a word by the rule of the aligner, when a prediction is left
    for it. *)
Definition label_at (prediction : list Prediction.t) (word_offset : Z * Z)
  : option string :=
  match skip_before (fst word_offset) prediction with
  | [] => None
  | p :: _ =>
      Some (if Prediction.start p =? fst word_offset
            then Prediction.entity p
            else "O")
  end.

(** The labels of the words of one example; the subscript raises when no
    prediction is left for a word. *)
Fixpoint labels_of (prediction : list Prediction.t) (words_offsets : list (Z * Z))
  : outcome (list string) :=
  match words_offsets with
  | [] => Ok []
  | word_offset :: rest =>
      match label_at prediction word_offset with
      | None => Raise IndexError
      | Some label => labels <- labels_of prediction rest ;; Ok (label :: labels)
      end
  end.

(** The labels of all examples, each prediction list with the word list of
    the same index. *)
Fixpoint align_rows (predictions : list (list Prediction.t))
  (words : list (list string)) (join_by : string) : outcome (list (list string)) :=
  match predictions with
  | [] => Ok []
  | prediction :: predictions' =>
      match words with
      | [] => Raise IndexError
      | ws :: words' =>
          labels <- labels_of prediction (words_to_offsets ws join_by) ;;
          preds <- align_rows predictions' words' join_by ;;
          Ok (labels :: preds)
      end
  end.

(** Predictions in ascending order of their start offset. *)
Definition start_le (p q : Prediction.t) : Prop :=
  Prediction.start p <= Prediction.start q.

Definition sorted_by_start (prediction : list Prediction.t) : Prop :=
  StronglySorted start_le prediction.

(** A prediction that does not start before [word_start]. *)
Definition not_before (word_start : Z) (p : Prediction.t) : bool :=
  negb (Prediction.start p <? word_start).

(** The cursor of an example runs past the end of its prediction list: some
    word starts after every prediction of the list. *)
Definition overruns (prediction : list Prediction.t) (words_offsets : list (Z * Z))
  : Prop :=
  Exists (fun word_offset =>
            Forall (fun p => Prediction.start p < fst word_offset) prediction)
    words_offsets.

(** Every word has a prediction that does not start before it. *)
Definition covered (prediction : list Prediction.t) (words_offsets : list (Z * Z))
  : Prop :=
  Forall (fun word_offset =>
            Exists (fun p => fst word_offset <= Prediction.start p) prediction)
    words_offsets.

(** [label] is what the aligner's rule gives the word at [word_offset]: the
    first prediction [p] in list order that does not start before the word
    exists, and the label is the entity of [p] when [p] starts at the word and
    ["O"] when it starts after it. *)
Definition emits (prediction : list Prediction.t) (word_offset : Z * Z)
  (label : string) : Prop :=
  exists p rest,
    skip_before (fst word_offset) prediction = p :: rest
    /\ ((Prediction.start p = fst word_offset /\ label = Prediction.entity p)
        \/ (Prediction.start p > fst word_offset /\ label = "O")).

(** Two predictions with the same ["start"] and ["entity"]. *)
Definition same_start_entity (p q : Prediction.t) : Prop :=
  Prediction.start p = Prediction.start q
  /\ Prediction.entity p = Prediction.entity q.

(** The labels of one example follow the rule, word by word; [row] is a
    prediction list with the word list of the same index. *)
Definition row_emits (join_by : string) (labels : list string)
  (row : list Prediction.t * list string) : Prop :=
  Forall2 (emits (fst row)) (words_to_offsets (snd row) join_by) labels.

Definition row_covered (join_by : string) (row : list Prediction.t * list string)
  : Prop :=
  covered (fst row) (words_to_offsets (snd row) join_by).

Definition row_overruns (join_by : string) (row : list Prediction.t * list string)
  : Prop :=
  overruns (fst row) (words_to_offsets (snd row) join_by).

(** Two words of the same length. *)
Definition same_len (w v : string) : Prop := len w = len v.

(** A prediction of which only ["entity"] and ["start"] matter. *)
Definition tok (entity : string) (start : Z) : Prediction.t :=
  Prediction.mk entity 1 0 "" start start.

(** ** Datasets *)

(** The feature classes of the [datasets] library that the evaluator tests
    for.  Each has a [dtype]: the one given to [Value], ["int64"] for a
    [ClassLabel], ["list"] for a [Sequence]. *)
Inductive Feature : Type :=
| Value (dtype : string)
| ClassLabel (names : list string)
| Sequence (feature : Feature).

Definition dtype (f : Feature) : string :=
  match f with
  | Value d => d
  | ClassLabel _ => "int64"
  | Sequence _ => "list"
  end.

(** The values a cell of a dataset can hold. *)
#[warnings="-register-all"]
Inductive value : Type :=
| VInt (z : Z)
| VStr (s : string)
| VList (l : list value).

(** A dataset: the feature of each column, the rows of each column and the
    fingerprint of its content. *)
Record Dataset : Type := {
  features : list (string * Feature);
  columns : list (string * list value);
  _fingerprint : string
}.

(** [d[k]] for a dict with string keys, kept as an association list. *)
Fixpoint dict_get {A : Type} (d : list (string * A)) (k : string) : outcome A :=
  match d with
  | [] => Raise KeyError
  | (k', a) :: rest => if String.eqb k k' then Ok a else dict_get rest k
  end.

(** [d[k] = a]. *)
Fixpoint dict_set {A : Type} (d : list (string * A)) (k : string) (a : A)
  : list (string * A) :=
  match d with
  | [] => [(k, a)]
  | (k', a') :: rest =>
      if String.eqb k k' then (k, a) :: rest else (k', a') :: dict_set rest k a
  end.

(** [d.update(other)]. *)
Definition dict_update {A : Type} (d other : list (string * A)) : list (string * A) :=
  fold_left (fun acc kv => dict_set acc (fst kv) (snd kv)) other d.

(** [[f(x) for x in l]], stopping at the first exception. *)
Fixpoint map_outcome {A B : Type} (f : A -> outcome B) (l : list A) : outcome (list B) :=
  match l with
  | [] => Ok []
  | x :: rest => y <- f x ;; ys <- map_outcome f rest ;; Ok (y :: ys)
  end.

(** The elements met when iterating over a value. *)
Definition iterate (v : value) : outcome (list value) :=
  match v with
  | VList l => Ok l
  | VStr s => Ok (map (fun c => VStr (String c "")) (list_ascii_of_string s))
  | VInt _ => Raise TypeError
  end.

(** The words of a row, as [str.join] and [len] need them. *)
Definition as_words (v : value) : outcome (list string) :=
  elements <- iterate v ;;
  map_outcome (fun e => match e with VStr s => Ok s | _ => Raise TypeError end)
    elements.

(** [id_to_label[label_id]] for
    [id_to_label = {i: label for i, label in enumerate(label_list)}]. *)
Definition id_to_label (label_list : list string) (label_id : value) : outcome string :=
  match label_id with
  | VInt z =>
      if (0 <=? z) && (z <? Z.of_nat (List.length label_list))
      then match nth_error label_list (Z.to_nat z) with
           | Some label => Ok label
           | None => Raise KeyError
           end
      else Raise KeyError
  | VStr _ => Raise KeyError
  | VList _ => Raise TypeError
  end.

(** ** The base class *)

(** The pipeline: the predictions it gives for a list of input strings. *)
Definition Pipeline : Type := list string -> list (list Prediction.t).

(** A result mapping, from names to values of type [V]. *)
Definition Result (V : Type) : Type := list (string * V).

(** The parameters of the resampling passed on to the metric. *)
Record Resampling : Type := {
  strategy : string;
  confidence_level : Q;
  n_resamples : Z;
  random_state : option Z
}.

(** What [TokenClassificationEvaluator] inherits from [Evaluator] and takes
    from its collaborators; none of it is in this file of the repository.
    [M] is what [compute] accepts as [model_or_pipeline], [Metric] what it
    accepts as [metric], [V] the type of the values of a result. *)
Class EvaluatorBase (M Metric V : Type) : Type := {
  task : string;
  cache_dir : string;
  load_data : Dataset -> option string -> outcome Dataset;
  super_prepare_data : Dataset -> string -> string -> outcome unit;
  super_prepare_pipeline : M -> outcome Pipeline;
  prepare_metric : Metric -> outcome Metric;
  metric_hash : Metric -> string;
  compute_metric :
    Metric -> list value -> list (list string) -> Resampling -> outcome (Result V);
  compute_time_perf : Z -> Z -> nat -> Result V;
  canary_dataset : string -> string -> string -> Dataset;
  md5_dill : list (list Prediction.t) -> string;
  md5_dill_hexdigest : forall predictions, md5_dill predictions <> ""
}.

(** ** [prepare_data] *)

Section PrepareData.

Context {M Metric V : Type} {base : EvaluatorBase M Metric V}.

(** [references] of [prepare_data], from the feature inside the [Sequence] of
    the label column. *)
Definition references_of (data : Dataset) (label_column : string) (feature : Feature)
  : outcome (list value) :=
  match feature with
  | ClassLabel label_list =>
      column <- dict_get (columns data) label_column ;;
      map_outcome
        (fun label_ids =>
           ids <- iterate label_ids ;;
           labels <- map_outcome (id_to_label label_list) ids ;;
           Ok (VList (map VStr labels)))
        column
  | _ =>
      if String.prefix "int" (dtype feature)
      then Raise NotImplementedError
      else dict_get (columns data) label_column
  end.

(** Returns [metric_inputs["references"]] and the joined strings that
    [DatasetColumn(data, input_column)] yields. *)
Definition prepare_data (data : Dataset) (input_column label_column join_by : string)
  : outcome (list value * list string) :=
  _ <- super_prepare_data data input_column label_column ;;
  input_feature <- dict_get (features data) input_column ;;
  match input_feature with
  | Sequence _ =>
      label_feature <- dict_get (features data) label_column ;;
      match label_feature with
      | Sequence feature =>
          references <- references_of data label_column feature ;;
          rows <- dict_get (columns data) input_column ;;
          pipeline_inputs <-
            map_outcome (fun x => ws <- as_words x ;; Ok (join join_by ws)) rows ;;
          Ok (references, pipeline_inputs)
      | _ => Raise ValueError
      end
  | _ => Raise ValueError
  end.

End PrepareData.

(** ** The world of [compute] *)

(** A parquet table: the values of each column. *)
Definition Table (V : Type) : Type := list (string * list V).

(** What [compute] reads and changes outside its arguments: the cache files,
    the inputs of every call made to a pipeline so far, and the readings that
    [perf_counter()] is going to give. *)
Record World (V : Type) : Type := {
  files : list (string * Table V);
  calls : list (list string);
  ticks : list Z
}.

Arguments files {V} w.
Arguments calls {V} w.
Arguments ticks {V} w.

(** A piece of Python run in a world. *)
Definition prog (V A : Type) : Type := World V -> outcome A * World V.

Definition ret {V A : Type} (a : A) : prog V A := fun w => (Ok a, w).

Definition lift {V A : Type} (m : outcome A) : prog V A := fun w => (m, w).

Definition pbind {V A B : Type} (m : prog V A) (k : A -> prog V B) : prog V B :=
  fun w =>
    match m w with
    | (Ok a, w') => k a w'
    | (Raise e, w') => (Raise e, w')
    | (Diverge, w') => (Diverge, w')
    end.

Declare Scope prog_scope.
Delimit Scope prog_scope with prog.
Notation "x <~ m ;; k" := (pbind m (fun x => k))
  (at level 61, m at next level, right associativity) : prog_scope.
Notation "' p <~ m ;; k" := (pbind m (fun p => k))
  (at level 61, p pattern, m at next level, right associativity) : prog_scope.
Local Open Scope prog_scope.

Section Compute.

Context {M Metric V : Type} {base : EvaluatorBase M Metric V}.

(** The world after one more call to a pipeline. *)
Definition record_call (inputs : list string) (w : World V) : World V :=
  {| files := files w; calls := calls w ++ [inputs]; ticks := ticks w |}.

(** [pipe(inputs, **self.PIPELINE_KWARGS)]: the call is recorded. *)
Definition call_pipe (pipe : Pipeline) (inputs : list string)
  : prog V (list (list Prediction.t)) :=
  fun w => (Ok (pipe inputs), record_call inputs w).

(** [perf_counter()]. *)
Definition perf_counter : prog V Z :=
  fun w =>
    (Ok (hd 0 (ticks w)),
     {| files := files w; calls := calls w; ticks := tl (ticks w) |}).

(** [os.path.join(a, b)] for a relative [b]. *)
Definition path_join (a b : string) : string :=
  if String.eqb a "" then b
  else if String.eqb (substring (String.length a - 1) 1 a) "/" then (a ++ b)%string
  else (a ++ "/" ++ b)%string.

(** [os.path.exists(name)]. *)
Definition path_exists (name : string) : prog V bool :=
  fun w =>
    (match dict_get (files w) name with Ok _ => Ok true | _ => Ok false end, w).

(** [pa.Table.to_pydict(pq.read_table(name))]. *)
Definition read_table (name : string) : prog V (Table V) :=
  fun w =>
    (match dict_get (files w) name with
     | Ok table => Ok table
     | _ => Raise FileNotFoundError
     end, w).

(** [{k: v[0] for (k, v) in result_from_table.items()}]. *)
Definition first_row (result_from_table : Table V) : outcome (Result V) :=
  map_outcome (fun kv => x <- getitem (snd kv) 0 ;; Ok (fst kv, x)) result_from_table.

(** The single-row table of a result mapping. *)
Definition table_of (result : Result V) : Table V :=
  map (fun kv => (fst kv, [snd kv])) result.

(** Modelled from the spec: [Evaluator.write_to_cache], of the base class.
    The cache file is a single-row table of the result mapping, and reading it
    returns the stored mapping. *)
Definition write_to_cache (cache_file_name : string) (result : Result V) : prog V unit :=
  fun w =>
    (Ok tt,
     {| files := dict_set (files w) cache_file_name (table_of result);
        calls := calls w;
        ticks := ticks w |}).

(** Modelled from the spec: [Evaluator.call_pipeline], of the base class.  It
    obtains the predictions from the pipeline and returns them with the
    performance counters of the call. *)
Definition call_pipeline (pipe : Pipeline) (inputs : list string)
  : prog V (list (list Prediction.t) * Result V) :=
  start_time <~ perf_counter ;;
  pipe_output <~ call_pipe pipe inputs ;;
  end_time <~ perf_counter ;;
  ret (pipe_output, compute_time_perf start_time end_time (List.length pipe_output)).

(** The input of the check made by [prepare_pipeline]. *)
Definition dummy_input : list string := ["2003 New York Gregory"].

(** [model] stands for the arguments passed on to the base class.  A
    prediction of the model has an integer ["start"], so of the test
    [dummy_output[0][0]["start"] is None] only the two subscripts are left. *)
Definition prepare_pipeline (model : M) : prog V Pipeline :=
  pipe <~ lift (super_prepare_pipeline model) ;;
  dummy_output <~ call_pipe pipe dummy_input ;;
  row <~ lift (getitem dummy_output 0) ;;
  _ <~ lift (getitem row 0) ;;
  ret pipe.

(** [input_column] is the list [[input_column, join_by]] here. *)
Definition compute_canary_hash (pipe : Pipeline) (input_column : list string)
  (label_column : string) : prog V string :=
  column <~ lift (getitem input_column 0) ;;
  let canary_data := canary_dataset task column label_column in
  join_by <~ lift (getitem input_column 1) ;;
  '(_, canary_inputs) <~ lift (prepare_data canary_data column label_column join_by) ;;
  '(predictions, _) <~ call_pipeline pipe canary_inputs ;;
  ret (md5_dill predictions).

(** The name of the cache file. *)
Definition cache_file (canary_hash : string) (data : Dataset) (metric : Metric)
  : string :=
  path_join cache_dir
    ("cache-" ++ canary_hash ++ "-" ++ _fingerprint data ++ "-" ++ metric_hash metric
     ++ ".parquet")%string.

(** The part of [compute] after the look-up in the cache; [cache] holds
    [canary_hash] and [cache_file_name] when [cache_if_possible] is set. *)
Definition compute_predictions (pipe : Pipeline) (pipe_inputs : list string)
  (data : Dataset) (metric : Metric) (references : list value)
  (resampling : Resampling) (input_column join_by : string)
  (cache : option (string * string)) : prog V (Result V) :=
  '(predictions, perf_results) <~ call_pipeline pipe pipe_inputs ;;
  rows <~ lift (dict_get (columns data) input_column) ;;
  words <~ lift (map_outcome as_words rows) ;;
  predictions <~ lift (predictions_processor predictions words join_by) ;;
  metric_results <~ lift (compute_metric metric references predictions resampling) ;;
  let result := dict_update (dict_update [] metric_results) perf_results in
  _ <~ match cache with
       | Some (canary_hash, cache_file_name) =>
           if negb (String.eqb canary_hash "")
           then write_to_cache cache_file_name result
           else ret tt
       | None => ret tt
       end ;;
  ret result.

Definition compute (model : M) (data : Dataset) (split : option string)
  (metric : Metric) (resampling : Resampling)
  (input_column label_column join_by : string) (cache_if_possible : bool)
  : prog V (Result V) :=
  data <~ lift (load_data data split) ;;
  '(references, pipe_inputs) <~
    lift (prepare_data data input_column label_column join_by) ;;
  pipe <~ prepare_pipeline model ;;
  metric <~ lift (prepare_metric metric) ;;
  if cache_if_possible
  then
    let input_columns := [input_column; join_by] in
    canary_hash <~ compute_canary_hash pipe input_columns label_column ;;
    let cache_file_name := cache_file canary_hash data metric in
    cached <~ path_exists cache_file_name ;;
    if (cached : bool)
    then
      result_from_table <~ read_table cache_file_name ;;
      lift (first_row result_from_table)
    else
      compute_predictions pipe pipe_inputs data metric references resampling
        input_column join_by (Some (canary_hash, cache_file_name))
  else
    compute_predictions pipe pipe_inputs data metric references resampling
      input_column join_by None.

End Compute.

(** ** A small instance *)

(** A pipeline that labels every input with one token at offset 0. *)
Definition example_pipe : Pipeline :=
  fun inputs => map (fun _ => [tok "O" 0]) inputs.

(** A dataset of one example in the format of the class documentation. *)
Definition example_data : Dataset := {|
  features := [("tokens", Sequence (Value "string"));
               ("ner_tags", Sequence (ClassLabel ["O"; "B-LOC"; "I-LOC"]))];
  columns := [("tokens", [VList [VStr "New"]]);
              ("ner_tags", [VList [VInt 1]])];
  _fingerprint := "5a1f"
|}.

(** The same with labels of an unsigned integer type and no [ClassLabel]. *)
Definition unsigned_data : Dataset := {|
  features := [("tokens", Sequence (Value "string"));
               ("ner_tags", Sequence (Value "uint8"))];
  columns := [("tokens", [VList [VStr "New"; VStr "York"]]);
              ("ner_tags", [VList [VInt 1; VInt 2]])];
  _fingerprint := "77c0"
|}.

(** The same with labels of a signed integer type and no [ClassLabel]. *)
Definition signed_data : Dataset := {|
  features := [("tokens", Sequence (Value "string"));
               ("ner_tags", Sequence (Value "int32"))];
  columns := [("tokens", [VList [VStr "New"; VStr "York"]]);
              ("ner_tags", [VList [VInt 1; VInt 2]])];
  _fingerprint := "77c1"
|}.

(** The canary dataset of the instance. *)
Definition canary_example : Dataset := {|
  features := [("tokens", Sequence (Value "string"));
               ("ner_tags", Sequence (ClassLabel ["O"; "B-LOC"; "I-LOC"]))];
  columns := [("tokens", [VList [VStr "Felix"; VStr "sings"]]);
              ("ner_tags", [VList [VInt 0; VInt 0]])];
  _fingerprint := "c4a2"
|}.

(** A base class and collaborators that accept everything: the metric counts
    the examples and the performance counters give the time of the call. *)
Definition example_base : EvaluatorBase unit unit Z := {|
  task := "token-classification";
  cache_dir := "cache";
  load_data := fun data _ => Ok data;
  super_prepare_data := fun _ _ _ => Ok tt;
  super_prepare_pipeline := fun _ => Ok example_pipe;
  prepare_metric := fun metric => Ok metric;
  metric_hash := fun _ => "9e3c";
  compute_metric :=
    fun _ _ predictions _ => Ok [("examples", Z.of_nat (List.length predictions))];
  compute_time_perf := fun start_time end_time _ =>
    [("total_time_in_seconds", end_time - start_time)];
  canary_dataset := fun _ _ _ => canary_example;
  md5_dill := fun _ => "0cc175b9c0f1b6a831c399e269772661";
  md5_dill_hexdigest := fun _ H =>
    match H in _ = s return match s with EmptyString => False | String _ _ => True end
    with eq_refl => I end
|}.

(** The default resampling of [compute]. *)
Definition simple : Resampling := {|
  strategy := "simple";
  confidence_level := 0.95;
  n_resamples := 9999;
  random_state := None
|}.

(** A world with no cache file, no call made yet and a clock that reads
    1, 2, 4, 8, 16, 32. *)
Definition fresh_world : World Z :=
  {| files := []; calls := []; ticks := [1; 2; 4; 8; 16; 32] |}.

(** ** More readings of the offsets and of the aligner *)

(** A span moved by [d] characters. *)
Definition shift (d : Z) (word_offset : Z * Z) : Z * Z :=
  (fst word_offset + d, snd word_offset + d).

(** The tokens of one word, as a tokenizer that splits words gives them: a
    first token that starts at the word's start, and further tokens that start
    no later than the word's last character. *)
Definition word_tokens (word_offset : Z * Z) (tokens : list Prediction.t) : Prop :=
  exists p rest,
    tokens = p :: rest
    /\ Prediction.start p = fst word_offset
    /\ Forall (fun q => Prediction.start q <= snd word_offset) rest.

(** The first prediction of an example starts after every word of it. *)
Definition starts_late (prediction : list Prediction.t) (ws : list string)
  (join_by : string) : Prop :=
  exists p rest,
    prediction = p :: rest
    /\ Forall (fun word_offset => fst word_offset < Prediction.start p)
         (words_to_offsets ws join_by).

(** ** More datasets *)

(** The format that the class documentation gives as not accepted: the input
    is one string per example. *)
Definition flat_data : Dataset := {|
  features := [("tokens", Value "string");
               ("ner_tags", Sequence (Value "string"))];
  columns := [("tokens", [VStr "New York is a city and Felix a person."]);
              ("ner_tags", [VList [VStr "LOC"; VStr "PER"]])];
  _fingerprint := "b0d1"
|}.

(** [ClassLabel] ids with a [-1] among them. *)
Definition missing_label_data : Dataset := {|
  features := [("tokens", Sequence (Value "string"));
               ("ner_tags", Sequence (ClassLabel ["O"; "B-LOC"; "I-LOC"]))];
  columns := [("tokens", [VList [VStr "New"; VStr "York"]]);
              ("ner_tags", [VList [VInt 1; VInt (-1)]])];
  _fingerprint := "e7a9"
|}.

(** A row of integer ids. *)
Definition ids_row (zs : list Z) : value := VList (map VInt zs).

(** [label] is the name that [label_list] gives to [label_id]. *)
Definition names_id (label_list : list string) (label_id : value) (label : string)
  : Prop :=
  exists z,
    label_id = VInt z
    /\ 0 <= z < Z.of_nat (List.length label_list)
    /\ nth_error label_list (Z.to_nat z) = Some label.

(** The comprehension of [prepare_data] over one row of label ids. *)
Definition row_labels (label_list : list string) (label_ids : value) : outcome value :=
  ids <- iterate label_ids ;;
  labels <- map_outcome (id_to_label label_list) ids ;;
  Ok (VList (map VStr labels)).

(** ** Readings of programs and cache names *)

(** A program that leaves the cache files as they are, whatever it returns. *)
Definition keeps_files {V A : Type} (m : prog V A) : Prop :=
  forall w, files (snd (m w)) = files w.

(** A program whose outcome and use of the clock do not depend on the cache
    files, nor on the calls made before. *)
Definition ignores_files {V A : Type} (m : prog V A) : Prop :=
  forall w v,
    ticks w = ticks v ->
    fst (m w) = fst (m v) /\ ticks (snd (m w)) = ticks (snd (m v)).

(** A string without the character [-]. *)
Definition dash_free (s : string) : Prop :=
  ~ In "-"%char (list_ascii_of_string s).

(** A dict kept as an association list holds every key once. *)
Definition unique_keys {A : Type} (d : list (string * A)) : Prop :=
  NoDup (map fst d).

(** A world in which the cache file of the instance already exists, with a
    table that no metric has written. *)
Definition stale_world : World Z :=
  {| files := [("cache/cache-0cc175b9c0f1b6a831c399e269772661-5a1f-9e3c.parquet",
                [("stale", [42; 43])])];
     calls := [];
     ticks := [1; 2; 4; 8] |}.

(** * Properties of [words_to_offsets] *)

Section Strings.

Lemma len_nonneg (s : string) : 0 <= len s.
Proof. unfold len. lia. Qed.

Lemma len_zero_iff (s : string) : len s = 0 <-> s = "".
Proof.
  unfold len. destruct s; simpl; split; intros H;
    try reflexivity; try discriminate; lia.
Qed.

Lemma append_assoc (a b c : string) : ((a ++ b) ++ c = a ++ (b ++ c))%string.
Proof. induction a as [|ch a IH]; simpl; [reflexivity | now rewrite IH]. Qed.

Lemma append_nil_r (a : string) : (a ++ "" = a)%string.
Proof. induction a as [|ch a IH]; simpl; [reflexivity | now rewrite IH]. Qed.

Lemma string_length_append (a b : string) :
  String.length (a ++ b) = (String.length a + String.length b)%nat.
Proof. induction a as [|ch a IH]; simpl; [reflexivity | now rewrite IH]. Qed.

Lemma len_append (a b : string) : len (a ++ b) = len a + len b.
Proof. unfold len. rewrite string_length_append. lia. Qed.

Lemma substring_zero_append (w r : string) :
  substring 0 (String.length w) (w ++ r) = w.
Proof.
  induction w as [|ch w IH]; simpl.
  - destruct r; reflexivity.
  - now rewrite IH.
Qed.

Lemma substring_skip_append (a b : string) (m : nat) :
  substring (String.length a) m (a ++ b) = substring 0 m b.
Proof. induction a as [|ch a IH]; simpl; [reflexivity | apply IH]. Qed.

(** Slicing a text at the position and length of one of its parts. *)
Lemma slice_middle (a w r : string) :
  slice (a ++ w ++ r) (len a) (len a + len w) = w.
Proof.
  unfold slice, len. rewrite Nat2Z.id.
  replace (Z.to_nat (Z.of_nat (String.length a) + Z.of_nat (String.length w)
                     - Z.of_nat (String.length a)))
    with (String.length w) by lia.
  rewrite substring_skip_append. apply substring_zero_append.
Qed.

Lemma join_cons (sep w : string) (ws : list string) :
  join sep (w :: ws) = (w ++ text_after sep ws)%string.
Proof.
  unfold join, text_after. destruct ws as [|v ws]; simpl.
  - now rewrite append_nil_r.
  - reflexivity.
Qed.

(** Where a word sits in the joined text. *)
Lemma join_split (sep : string) (pre : list string) (w : string) (post : list string) :
  join sep (pre ++ w :: post)
  = (text_before sep pre ++ w ++ text_after sep post)%string.
Proof.
  induction pre as [|v pre IH].
  - simpl. apply join_cons.
  - change ((v :: pre) ++ w :: post) with (v :: (pre ++ w :: post)).
    rewrite join_cons. unfold text_after at 1.
    destruct (pre ++ w :: post) as [|x l] eqn:E.
    + destruct pre; discriminate.
    + rewrite IH. unfold text_before. destruct pre as [|u pre].
      * simpl. now rewrite append_assoc.
      * change (join sep (v :: u :: pre))
          with (v ++ sep ++ join sep (u :: pre))%string.
        rewrite !append_assoc. reflexivity.
Qed.

End Strings.

Section Offsets.

Variable join_by : string.

Lemma offsets_loop_spec (words : list string) :
  forall (offsets : list (Z * Z)) (start : Z),
    offsets_loop join_by words (offsets, start)
    = (offsets ++ spans_from join_by start words, cursor_after join_by start words).
Proof.
  unfold offsets_loop.
  induction words as [|word rest IH]; intros offsets start; simpl.
  - now rewrite app_nil_r.
  - rewrite IH, <- app_assoc. reflexivity.
Qed.

Lemma words_to_offsets_spans (words : list string) :
  words_to_offsets words join_by = spans_from join_by 0 words.
Proof. unfold words_to_offsets. now rewrite offsets_loop_spec. Qed.

Lemma spans_from_length (words : list string) :
  forall start, List.length (spans_from join_by start words) = List.length words.
Proof. induction words as [|w ws IH]; intros start; simpl; [|rewrite IH]; reflexivity. Qed.

Lemma spans_from_app (pre post : list string) :
  forall start,
    spans_from join_by start (pre ++ post)
    = spans_from join_by start pre
        ++ spans_from join_by (cursor_after join_by start pre) post.
Proof.
  induction pre as [|w pre IH]; intros start; simpl; [reflexivity|].
  now rewrite IH.
Qed.

Lemma text_before_cons (v : string) (pre : list string) :
  text_before join_by (v :: pre) = (v ++ join_by ++ text_before join_by pre)%string.
Proof.
  unfold text_before. destruct pre as [|u pre].
  - simpl. now rewrite append_nil_r.
  - change (join join_by (v :: u :: pre))
      with (v ++ join_by ++ join join_by (u :: pre))%string.
    now rewrite !append_assoc.
Qed.

Lemma cursor_after_text (pre : list string) :
  forall start,
    cursor_after join_by start pre = start + len (text_before join_by pre).
Proof.
  induction pre as [|v pre IH]; intros start.
  - simpl. unfold len. simpl. lia.
  - rewrite text_before_cons, !len_append. simpl. rewrite IH. lia.
Qed.

Lemma cursor_after_ge (words : list string) :
  forall start, start <= cursor_after join_by start words.
Proof.
  intros start. rewrite cursor_after_text.
  pose proof (len_nonneg (text_before join_by words)). lia.
Qed.

(** Every span the loop emits starts at or after the cursor it was entered
    with. *)
Lemma spans_from_starts_ge (words : list string) :
  forall start, Forall (fun off => start <= fst off) (spans_from join_by start words).
Proof.
  induction words as [|w ws IH]; intros start; simpl; constructor.
  - simpl. lia.
  - eapply Forall_impl; [|apply IH]. simpl. intros off H.
    pose proof (len_nonneg w). pose proof (len_nonneg join_by). lia.
Qed.

Lemma spans_from_starts_le (words : list string) :
  forall start, StronglySorted starts_le (spans_from join_by start words).
Proof.
  induction words as [|w ws IH]; intros start; simpl; constructor.
  - apply IH.
  - eapply Forall_impl; [|apply spans_from_starts_ge]. unfold starts_le. simpl.
    intros off H. pose proof (len_nonneg w). pose proof (len_nonneg join_by). lia.
Qed.

Lemma spans_from_ends_before (words : list string) :
  forall start, StronglySorted ends_before (spans_from join_by start words).
Proof.
  induction words as [|w ws IH]; intros start; simpl; constructor.
  - apply IH.
  - eapply Forall_impl; [|apply spans_from_starts_ge]. unfold ends_before. simpl.
    intros off H. pose proof (len_nonneg join_by). lia.
Qed.

(** The starts increase strictly as long as each step moves the cursor. *)
Lemma spans_from_starts_lt (words : list string) :
  join_by <> "" \/ Forall (fun w => w <> "") (removelast words) ->
  forall start, StronglySorted starts_lt (spans_from join_by start words).
Proof.
  intros Hmove.
  induction words as [|w ws IH]; intros start; [constructor|].
  assert (Hrest : join_by <> "" \/ Forall (fun w => w <> "") (removelast ws)).
  { destruct Hmove as [H|H]; [now left|right].
    destruct ws as [|v ws]; [constructor|]. now inversion H. }
  simpl. constructor; [apply IH, Hrest|].
  destruct ws as [|v ws]; [constructor|].
  assert (Hpos : 0 < len w + len join_by).
  { pose proof (len_nonneg w). pose proof (len_nonneg join_by).
    destruct Hmove as [Hsep|Hall].
    - assert (len join_by <> 0) by (now rewrite len_zero_iff). lia.
    - inversion Hall as [|? ? Hw _]; subst.
      assert (len w <> 0) by (now rewrite len_zero_iff). lia. }
  eapply Forall_impl; [|apply spans_from_starts_ge]. unfold starts_lt. simpl.
  intros off H. lia.
Qed.

Lemma spans_from_starts_lt_inv (words : list string) :
  forall start,
    StronglySorted starts_lt (spans_from join_by start words) ->
    join_by = "" -> Forall (fun w => w <> "") (removelast words).
Proof.
  induction words as [|w ws IH]; intros start Hs Hsep; [constructor|].
  destruct ws as [|v ws]; [constructor|].
  simpl in Hs. apply StronglySorted_inv in Hs. destruct Hs as [Hs Hall].
  change (removelast (w :: v :: ws)) with (w :: removelast (v :: ws)).
  constructor.
  - inversion Hall as [|? ? Hlt _]; subst. unfold starts_lt in Hlt. simpl in Hlt.
    intros ->. unfold len in Hlt. simpl in Hlt. lia.
  - eapply IH; [exact Hs | exact Hsep].
Qed.

End Offsets.

(** * Properties of the aligner loops *)

Section Lists.

Context {A : Type}.

Lemma skipn_nth_error (l : list A) :
  forall i a, nth_error l i = Some a -> skipn i l = a :: skipn (S i) l.
Proof.
  induction l as [|x l IH]; intros [|i] a H; simpl in H; try discriminate.
  - now injection H as ->.
  - now apply IH.
Qed.

Lemma skipn_past_end (l : list A) (i : nat) :
  nth_error l i = None -> skipn i l = [].
Proof. intros H. apply skipn_all2. now apply nth_error_None. Qed.

Lemma nth_error_middle (pre : list A) (a : A) (post : list A) :
  nth_error (pre ++ a :: post) (List.length pre) = Some a.
Proof. rewrite nth_error_app2 by lia. now rewrite Nat.sub_diag. Qed.

End Lists.

Section Skipping.

Variable word_start : Z.

Lemma skip_before_app_lt (pre rest : list Prediction.t) :
  Forall (fun p => Prediction.start p < word_start) pre ->
  skip_before word_start (pre ++ rest) = skip_before word_start rest.
Proof.
  induction 1 as [|p pre Hp _ IH]; [reflexivity|].
  simpl. now rewrite (proj2 (Z.ltb_lt _ _) Hp).
Qed.

(** What is skipped starts before the word; what is left is a suffix. *)
Lemma skip_before_split (prediction : list Prediction.t) :
  exists pre,
    prediction = pre ++ skip_before word_start prediction
    /\ Forall (fun p => Prediction.start p < word_start) pre.
Proof.
  induction prediction as [|p rest IH].
  - exists []. split; [reflexivity | constructor].
  - simpl. destruct (Prediction.start p <? word_start) eqn:E.
    + destruct IH as (pre & Heq & Hpre). exists (p :: pre). split.
      * simpl. now rewrite <- Heq.
      * constructor; [now apply Z.ltb_lt | exact Hpre].
    + exists []. split; [reflexivity | constructor].
Qed.

Lemma skip_before_head (prediction : list Prediction.t) (p : Prediction.t)
  (rest : list Prediction.t) :
  skip_before word_start prediction = p :: rest ->
  word_start <= Prediction.start p.
Proof.
  induction prediction as [|q l IH]; simpl; [discriminate|].
  destruct (Prediction.start q <? word_start) eqn:E; [exact IH|].
  intros H. injection H as -> _. apply Z.ltb_ge. exact E.
Qed.

Lemma skip_before_nil_iff (prediction : list Prediction.t) :
  skip_before word_start prediction = []
  <-> Forall (fun p => Prediction.start p < word_start) prediction.
Proof.
  induction prediction as [|q l IH]; simpl.
  - split; [constructor | reflexivity].
  - destruct (Prediction.start q <? word_start) eqn:E.
    + rewrite IH. split.
      * intros H. constructor; [now apply Z.ltb_lt | exact H].
      * intros H. now inversion H.
    + split; [discriminate|]. intros H. inversion H as [|? ? Hq _]; subst.
      apply Z.ltb_ge in E. lia.
Qed.

Lemma skip_before_cons_exists (prediction : list Prediction.t) (p : Prediction.t)
  (rest : list Prediction.t) :
  skip_before word_start prediction = p :: rest ->
  Exists (fun q => word_start <= Prediction.start q) prediction.
Proof.
  intros H. pose proof (skip_before_head _ _ _ H) as Hp.
  destruct (skip_before_split prediction) as (pre & Heq & _).
  rewrite H in Heq. rewrite Heq. apply Exists_app. right. now constructor.
Qed.

(** On a list sorted by start, skipping the leading predictions that start
    before the word removes every prediction that starts before it. *)
Lemma skip_before_filter (prediction : list Prediction.t) :
  sorted_by_start prediction ->
  skip_before word_start prediction = filter (not_before word_start) prediction.
Proof.
  unfold sorted_by_start, not_before.
  induction 1 as [|p l _ IH Hall]; [reflexivity|].
  simpl. destruct (Prediction.start p <? word_start) eqn:E; simpl; [exact IH|].
  f_equal. symmetry. apply forallb_filter_id. apply forallb_forall.
  intros q Hq. rewrite Forall_forall in Hall. specialize (Hall q Hq).
  unfold start_le in Hall. apply Z.ltb_ge in E.
  apply negb_true_iff, Z.ltb_ge. lia.
Qed.

(** The [while] loop stops at the first prediction, from the cursor on, that
    does not start before the word, and raises when there is none. *)
Lemma skip_loop_spec (prediction : list Prediction.t) :
  forall fuel token_index,
    (List.length prediction - token_index < fuel)%nat ->
    skip_loop fuel prediction token_index word_start
    = match skip_before word_start (skipn token_index prediction) with
      | [] => Raise IndexError
      | (_ :: _) as rest => Ok (List.length prediction - List.length rest)%nat
      end.
Proof.
  induction fuel as [|fuel IH]; intros token_index Hfuel; [lia|].
  simpl. unfold getitem.
  destruct (nth_error prediction token_index) as [p|] eqn:E.
  - assert (Hlt : (token_index < List.length prediction)%nat).
    { apply nth_error_Some. congruence. }
    rewrite (skipn_nth_error _ _ _ E). cbn [bind skip_before].
    destruct (Prediction.start p <? word_start) eqn:Hp.
    + apply IH. lia.
    + f_equal. cbn [List.length]. rewrite length_skipn. lia.
  - now rewrite (skipn_past_end _ _ E).
Qed.

End Skipping.

Section Aligner.

Lemma bind_cons_app {A : Type} (m : outcome (list A)) (a : A) (acc : list A) :
  (labels <- m ;; Ok ((acc ++ [a]) ++ labels))
  = (labels <- (labels <- m ;; Ok (a :: labels)) ;; Ok (acc ++ labels)).
Proof. destruct m; simpl; [now rewrite <- app_assoc | reflexivity | reflexivity]. Qed.

(** The inner loop, entered with a cursor that has only passed predictions
    starting before every remaining word, gives each remaining word the label
    of the rule. *)
Lemma words_loop_spec (prediction : list Prediction.t) :
  forall words_offsets token_index pred_processed,
    StronglySorted starts_le words_offsets ->
    Forall (fun word_offset =>
              Forall (fun p => Prediction.start p < fst word_offset)
                (firstn token_index prediction))
      words_offsets ->
    words_loop prediction words_offsets token_index pred_processed
    = (labels <- labels_of prediction words_offsets ;;
       Ok (pred_processed ++ labels)).
Proof.
  induction words_offsets as [|off rest IH]; intros ti acc Hs Hinv.
  - simpl. now rewrite app_nil_r.
  - apply StronglySorted_inv in Hs. destruct Hs as [Hs Hle].
    inversion Hinv as [|? ? Hoff Hrest]; subst.
    cbn [words_loop labels_of]. unfold label_at.
    rewrite skip_loop_spec by (unfold skip_fuel; lia).
    assert (E : skip_before (fst off) prediction
                = skip_before (fst off) (skipn ti prediction)).
    { rewrite <- (firstn_skipn ti prediction) at 1.
      now apply skip_before_app_lt. }
    rewrite <- E.
    destruct (skip_before (fst off) prediction) as [|p r] eqn:Er; [reflexivity|].
    pose proof (skip_before_head _ _ _ _ Er) as Hp.
    destruct (skip_before_split (fst off) prediction) as (pre & Heq & Hpre).
    rewrite Er in Heq.
    assert (Hti : (List.length prediction - List.length (p :: r))%nat
                  = List.length pre).
    { rewrite Heq at 1. rewrite length_app. lia. }
    cbn [bind]. rewrite Hti.
    assert (Hget : getitem prediction (List.length pre) = Ok p).
    { unfold getitem. rewrite Heq at 1. now rewrite nth_error_middle. }
    assert (Hnext : Forall (fun word_offset =>
                              Forall (fun q => Prediction.start q < fst word_offset)
                                (firstn (List.length pre) prediction))
                      rest).
    { assert (Hfirst : firstn (List.length pre) prediction = pre).
      { rewrite Heq at 1. rewrite firstn_app, firstn_all, Nat.sub_diag.
        simpl. apply app_nil_r. }
      rewrite Hfirst.
      eapply Forall_impl; [|exact Hle]. unfold starts_le. intros off' Hoff'.
      eapply Forall_impl; [|exact Hpre]. simpl. intros q Hq. lia. }
    rewrite !Hget. cbn [bind].
    destruct (Prediction.start p >? fst off) eqn:Hgt.
    + assert (Hne : (Prediction.start p =? fst off) = false) by lia.
      rewrite Hne, (IH _ _ Hs Hnext). apply bind_cons_app.
    + assert (Heqb : (Prediction.start p =? fst off) = true) by lia.
      rewrite Heqb, (IH _ _ Hs Hnext). apply bind_cons_app.
Qed.

(** One example: the loop started at cursor [0] on the offsets of its words. *)
Lemma example_spec (prediction : list Prediction.t) (ws : list string)
  (join_by : string) :
  words_loop prediction (words_to_offsets ws join_by) 0 []
  = labels_of prediction (words_to_offsets ws join_by).
Proof.
  rewrite words_loop_spec.
  - now destruct (labels_of prediction (words_to_offsets ws join_by)).
  - rewrite words_to_offsets_spans. apply spans_from_starts_le.
  - apply Forall_forall. intros off _. constructor.
Qed.

Lemma rows_loop_spec (words : list (list string)) (join_by : string) :
  forall predictions k preds,
    rows_loop (combine (seq k (List.length predictions)) predictions)
      words join_by preds
    = (rows <- align_rows predictions (skipn k words) join_by ;;
       Ok (preds ++ rows)).
Proof.
  induction predictions as [|prediction predictions IH]; intros k preds.
  - simpl. now rewrite app_nil_r.
  - cbn [List.length seq combine rows_loop align_rows]. unfold getitem.
    destruct (nth_error words k) as [ws|] eqn:E.
    + rewrite (skipn_nth_error _ _ _ E). cbn [bind].
      rewrite example_spec.
      destruct (labels_of prediction (words_to_offsets ws join_by)) as [labels| |];
        cbn [bind]; try reflexivity.
      rewrite IH. apply bind_cons_app.
    + now rewrite (skipn_past_end _ _ E).
Qed.

(** The method computes the labels of the rule, example by example. *)
Lemma predictions_processor_spec (predictions : list (list Prediction.t))
  (words : list (list string)) (join_by : string) :
  predictions_processor predictions words join_by
  = align_rows predictions words join_by.
Proof.
  unfold predictions_processor, enumerate. rewrite rows_loop_spec. simpl.
  now destruct (align_rows predictions words join_by).
Qed.

End Aligner.

(** * Properties of the rule *)

Section Rule.

Variable prediction : list Prediction.t.

Lemma label_at_emits (word_offset : Z * Z) (label : string) :
  label_at prediction word_offset = Some label
  <-> emits prediction word_offset label.
Proof.
  unfold label_at, emits.
  destruct (skip_before (fst word_offset) prediction) as [|p r] eqn:E.
  - split; [discriminate|]. intros (q & rest & H & _). discriminate.
  - pose proof (skip_before_head _ _ _ _ E) as Hp. split.
    + intros H. injection H as <-. exists p, r. split; [reflexivity|].
      destruct (Z.eqb_spec (Prediction.start p) (fst word_offset)) as [Heq|Hne].
      * now left.
      * right. split; [lia | reflexivity].
    + intros (q & rest & H & Hcase). injection H as <- <-. f_equal.
      destruct (Z.eqb_spec (Prediction.start p) (fst word_offset)) as [Heq|Hne];
        destruct Hcase as [[H1 H2]|[H1 H2]]; subst; try reflexivity; lia.
Qed.

Lemma label_at_none (word_offset : Z * Z) :
  label_at prediction word_offset = None
  <-> Forall (fun p => Prediction.start p < fst word_offset) prediction.
Proof.
  rewrite <- skip_before_nil_iff. unfold label_at.
  destruct (skip_before (fst word_offset) prediction); split;
    congruence || discriminate.
Qed.

Lemma label_at_some (word_offset : Z * Z) :
  (exists label, label_at prediction word_offset = Some label)
  <-> Exists (fun p => fst word_offset <= Prediction.start p) prediction.
Proof.
  split.
  - intros (label & H). unfold label_at in H.
    destruct (skip_before (fst word_offset) prediction) as [|p r] eqn:E;
      [discriminate|].
    eapply skip_before_cons_exists, E.
  - intros H. destruct (label_at prediction word_offset) as [label|] eqn:E.
    + now exists label.
    + apply label_at_none in E. apply Exists_exists in H.
      destruct H as (p & Hin & Hp). rewrite Forall_forall in E.
      specialize (E p Hin). simpl in E. lia.
Qed.

Lemma labels_of_ok_iff (words_offsets : list (Z * Z)) :
  forall labels,
    labels_of prediction words_offsets = Ok labels
    <-> Forall2 (emits prediction) words_offsets labels.
Proof.
  induction words_offsets as [|off rest IH]; intros labels; simpl.
  - split.
    + intros H. injection H as <-. constructor.
    + intros H. now inversion H.
  - destruct (label_at prediction off) as [label|] eqn:E.
    + destruct (labels_of prediction rest) as [ls| |] eqn:Er; simpl; split;
        try discriminate.
      * intros H. injection H as <-. constructor.
        -- now apply label_at_emits.
        -- now apply IH.
      * intros H. inversion H as [|? l' ? ls' Hl Hls]; subst.
        apply label_at_emits in Hl. apply IH in Hls. congruence.
      * intros H. inversion H as [|? l' ? ls' Hl Hls]; subst.
        apply IH in Hls. discriminate.
      * intros H. inversion H as [|? l' ? ls' Hl Hls]; subst.
        apply IH in Hls. discriminate.
    + split; [discriminate|].
      intros H. inversion H as [|? l' ? ls' Hl Hls]; subst.
      apply label_at_emits in Hl. congruence.
Qed.

Lemma labels_of_raise_iff (words_offsets : list (Z * Z)) :
  labels_of prediction words_offsets = Raise IndexError
  <-> overruns prediction words_offsets.
Proof.
  unfold overruns. induction words_offsets as [|off rest IH]; simpl.
  - split; [discriminate|]. intros H. inversion H.
  - destruct (label_at prediction off) as [label|] eqn:E.
    + rewrite Exists_cons, <- IH.
      assert (Hno : ~ Forall (fun p => Prediction.start p < fst off) prediction).
      { rewrite <- label_at_none. congruence. }
      destruct (labels_of prediction rest) as [ls|e|]; simpl; split.
      * discriminate.
      * intros [H|H]; [tauto | discriminate].
      * intros H. now right.
      * intros [H|H]; [tauto | exact H].
      * discriminate.
      * intros [H|H]; [tauto | discriminate].
    + split; [|reflexivity]. intros _. constructor. now apply label_at_none.
Qed.

(** An example yields its labels or raises [IndexError]; nothing else. *)
Lemma labels_of_cases (words_offsets : list (Z * Z)) :
  (exists labels, labels_of prediction words_offsets = Ok labels)
  \/ labels_of prediction words_offsets = Raise IndexError.
Proof.
  induction words_offsets as [|off rest IH]; simpl.
  - left. now exists [].
  - destruct (label_at prediction off) as [label|]; [|now right].
    destruct IH as [(ls & ->)| ->]; simpl; [left; now eexists | now right].
Qed.

Lemma covered_not_overruns (words_offsets : list (Z * Z)) :
  covered prediction words_offsets <-> ~ overruns prediction words_offsets.
Proof.
  unfold covered, overruns. rewrite <- Forall_Exists_neg. split.
  - apply Forall_impl. intros off Hex Hall. apply Exists_exists in Hex.
    destruct Hex as (p & Hin & Hp). rewrite Forall_forall in Hall.
    specialize (Hall p Hin). simpl in Hall. lia.
  - apply Forall_impl. intros off Hno. apply label_at_some.
    destruct (label_at prediction off) as [label|] eqn:E; [now exists label|].
    exfalso. apply Hno. now apply label_at_none.
Qed.

Lemma labels_of_covered (words_offsets : list (Z * Z)) :
  covered prediction words_offsets ->
  exists labels, labels_of prediction words_offsets = Ok labels.
Proof.
  intros H. destruct (labels_of_cases words_offsets) as [Hok|Hraise];
    [exact Hok|].
  apply labels_of_raise_iff in Hraise. now apply covered_not_overruns in H.
Qed.

End Rule.

Section Rows.

Variable join_by : string.

Lemma align_rows_cases (predictions : list (list Prediction.t)) :
  forall words,
    (exists preds, align_rows predictions words join_by = Ok preds)
    \/ align_rows predictions words join_by = Raise IndexError.
Proof.
  induction predictions as [|prediction ps IH]; intros words; simpl.
  - left. now exists [].
  - destruct words as [|ws wss]; [now right|].
    destruct (labels_of_cases prediction (words_to_offsets ws join_by))
      as [(labels & ->)| ->]; simpl; [|now right].
    destruct (IH wss) as [(preds & ->)| ->]; simpl;
      [left; now eexists | now right].
Qed.

Lemma align_rows_ok_iff (predictions : list (list Prediction.t)) :
  forall words preds,
    align_rows predictions words join_by = Ok preds
    <-> (List.length predictions <= List.length words)%nat
        /\ Forall2 (row_emits join_by) preds (combine predictions words).
Proof.
  induction predictions as [|prediction ps IH]; intros words preds.
  - simpl. split.
    + intros H. injection H as <-. split; [lia | constructor].
    + intros [_ H]. now inversion H.
  - destruct words as [|ws wss]; simpl.
    + split; [discriminate|]. intros [H _]. lia.
    + destruct (labels_of prediction (words_to_offsets ws join_by))
        as [labels|e|] eqn:El; simpl.
      * destruct (align_rows ps wss join_by) as [rows|e|] eqn:Er; simpl.
        -- split.
           ++ intros H. injection H as <-. apply IH in Er.
              destruct Er as [Hlen Hrows]. split; [lia|].
              constructor; [|exact Hrows].
              unfold row_emits. simpl. now apply labels_of_ok_iff.
           ++ intros [Hlen H]. inversion H as [|l' ? rows' ? Hl Hrows']; subst.
              unfold row_emits in Hl. simpl in Hl.
              apply labels_of_ok_iff in Hl.
              assert (Hr : align_rows ps wss join_by = Ok rows').
              { apply IH. split; [lia | exact Hrows']. }
              congruence.
        -- split; [discriminate|].
           intros [Hlen H]. inversion H as [|l' ? rows' ? Hl Hrows']; subst.
           assert (Hr : align_rows ps wss join_by = Ok rows').
           { apply IH. split; [lia | exact Hrows']. }
           congruence.
        -- split; [discriminate|].
           intros [Hlen H]. inversion H as [|l' ? rows' ? Hl Hrows']; subst.
           assert (Hr : align_rows ps wss join_by = Ok rows').
           { apply IH. split; [lia | exact Hrows']. }
           congruence.
      * split; [discriminate|].
        intros [Hlen H]. inversion H as [|l' ? rows' ? Hl Hrows']; subst.
        unfold row_emits in Hl. simpl in Hl. apply labels_of_ok_iff in Hl.
        congruence.
      * split; [discriminate|].
        intros [Hlen H]. inversion H as [|l' ? rows' ? Hl Hrows']; subst.
        unfold row_emits in Hl. simpl in Hl. apply labels_of_ok_iff in Hl.
        congruence.
Qed.

Lemma align_rows_raise_iff (predictions : list (list Prediction.t)) :
  forall words,
    align_rows predictions words join_by = Raise IndexError
    <-> (List.length words < List.length predictions)%nat
        \/ Exists (row_overruns join_by) (combine predictions words).
Proof.
  induction predictions as [|prediction ps IH]; intros words.
  - simpl. split; [discriminate|]. intros [H|H]; [lia | inversion H].
  - destruct words as [|ws wss]; simpl.
    + split; [intros _; left; lia | reflexivity].
    + rewrite Exists_cons. unfold row_overruns at 1. simpl.
      rewrite <- labels_of_raise_iff.
      destruct (labels_of_cases prediction (words_to_offsets ws join_by))
        as [(labels & El)|El]; rewrite El; simpl.
      * destruct (align_rows_cases ps wss) as [(rows & Er)|Er].
        -- rewrite Er. simpl. split; [discriminate|].
           intros [H|[H|H]]; try discriminate.
           ++ assert (Hr : align_rows ps wss join_by = Raise IndexError).
              { apply IH. left. lia. }
              congruence.
           ++ assert (Hr : align_rows ps wss join_by = Raise IndexError).
              { apply IH. now right. }
              congruence.
        -- rewrite Er. simpl. split; [|reflexivity]. intros _.
           apply IH in Er. destruct Er as [H|H]; [left; lia | right; now right].
      * split; [|reflexivity]. intros _. right. now left.
Qed.

Lemma align_rows_covered (predictions : list (list Prediction.t))
  (words : list (list string)) :
  (List.length predictions <= List.length words)%nat ->
  Forall (row_covered join_by) (combine predictions words) ->
  exists preds, align_rows predictions words join_by = Ok preds.
Proof.
  intros Hlen Hcov.
  destruct (align_rows_cases predictions words) as [Hok|Hraise]; [exact Hok|].
  apply align_rows_raise_iff in Hraise. destruct Hraise as [H|H]; [lia|].
  exfalso. apply Exists_exists in H. destruct H as (row & Hin & Hrow).
  rewrite Forall_forall in Hcov. specialize (Hcov row Hin).
  unfold row_covered in Hcov. apply covered_not_overruns in Hcov.
  now apply Hcov.
Qed.

End Rows.

(** * What the aligner reads *)

Section Dependence.

Lemma spans_from_same_len (join_by1 join_by2 : string) (ws1 ws2 : list string) :
  len join_by1 = len join_by2 ->
  Forall2 same_len ws1 ws2 ->
  forall start, spans_from join_by1 start ws1 = spans_from join_by2 start ws2.
Proof.
  intros Hsep. induction 1 as [|w v ws1 ws2 Hw _ IH]; intros start; simpl;
    [reflexivity|].
  unfold same_len in Hw. now rewrite Hw, Hsep, IH.
Qed.

Lemma skip_before_same (word_start : Z) (p1 p2 : list Prediction.t) :
  Forall2 same_start_entity p1 p2 ->
  Forall2 same_start_entity (skip_before word_start p1) (skip_before word_start p2).
Proof.
  induction 1 as [|p q l1 l2 Hpq Hl IH]; simpl; [constructor|].
  destruct Hpq as [Hs He]. rewrite <- Hs.
  destruct (Prediction.start p <? word_start); [exact IH|].
  constructor; [now split | exact Hl].
Qed.

Lemma label_at_same (p1 p2 : list Prediction.t) (word_offset : Z * Z) :
  Forall2 same_start_entity p1 p2 ->
  label_at p1 word_offset = label_at p2 word_offset.
Proof.
  intros H. unfold label_at.
  destruct (skip_before_same (fst word_offset) _ _ H) as [|p q ? ? [Hs He] _];
    [reflexivity|].
  now rewrite Hs, He.
Qed.

Lemma labels_of_same (p1 p2 : list Prediction.t) (words_offsets : list (Z * Z)) :
  Forall2 same_start_entity p1 p2 ->
  labels_of p1 words_offsets = labels_of p2 words_offsets.
Proof.
  intros H. induction words_offsets as [|off rest IH]; simpl; [reflexivity|].
  now rewrite (label_at_same _ _ off H), IH.
Qed.

Lemma align_rows_same (join_by1 join_by2 : string)
  (predictions1 predictions2 : list (list Prediction.t)) :
  len join_by1 = len join_by2 ->
  Forall2 (Forall2 same_start_entity) predictions1 predictions2 ->
  forall words1 words2,
    Forall2 (Forall2 same_len) words1 words2 ->
    align_rows predictions1 words1 join_by1
    = align_rows predictions2 words2 join_by2.
Proof.
  intros Hsep. induction 1 as [|p1 p2 ps1 ps2 Hp _ IH]; intros words1 words2 Hw;
    simpl; [reflexivity|].
  destruct Hw as [|ws1 ws2 wss1 wss2 Hws Hwss]; [reflexivity|].
  rewrite !words_to_offsets_spans.
  rewrite (spans_from_same_len _ _ _ _ Hsep Hws), (labels_of_same _ _ _ Hp).
  now rewrite (IH _ _ Hwss).
Qed.

End Dependence.

Section Lengths.

Variable join_by : string.

Lemma words_to_offsets_length (ws : list string) :
  List.length (words_to_offsets ws join_by) = List.length ws.
Proof. rewrite words_to_offsets_spans. apply spans_from_length. Qed.

Lemma labels_of_length (prediction : list Prediction.t) (ws : list string)
  (labels : list string) :
  labels_of prediction (words_to_offsets ws join_by) = Ok labels ->
  List.length labels = List.length ws.
Proof.
  intros H. apply labels_of_ok_iff in H. apply Forall2_length in H.
  rewrite words_to_offsets_length in H. lia.
Qed.

Lemma align_rows_lengths (predictions : list (list Prediction.t)) :
  forall words preds,
    align_rows predictions words join_by = Ok preds ->
    List.length preds = List.length predictions
    /\ Forall2 (fun labels ws => List.length labels = List.length ws)
         preds (firstn (List.length predictions) words).
Proof.
  induction predictions as [|prediction ps IH]; intros words preds; simpl.
  - intros H. injection H as <-. split; [reflexivity | constructor].
  - destruct words as [|ws wss]; [discriminate|].
    destruct (labels_of prediction (words_to_offsets ws join_by))
      as [labels|e|] eqn:El; simpl; try discriminate.
    destruct (align_rows ps wss join_by) as [rows|e|] eqn:Er; simpl;
      try discriminate.
    intros H. injection H as <-. destruct (IH _ _ Er) as [Hlen Hrows].
    split; [simpl; lia|].
    constructor; [now apply labels_of_length in El | exact Hrows].
Qed.

(** An example without words contributes an empty label list and its
    prediction list plays no part in the outcome. *)
Lemma align_rows_no_words (pre : list (list Prediction.t))
  (prediction : list Prediction.t) (post : list (list Prediction.t)) :
  forall words,
    nth_error words (List.length pre) = Some [] ->
    (forall prediction',
        align_rows (pre ++ prediction' :: post) words join_by
        = align_rows (pre ++ prediction :: post) words join_by)
    /\ (forall preds,
           align_rows (pre ++ prediction :: post) words join_by = Ok preds ->
           nth_error preds (List.length pre) = Some []).
Proof.
  induction pre as [|row pre IH]; intros words Hw.
  - destruct words as [|ws wss]; [discriminate|].
    simpl in Hw. injection Hw as ->. split.
    + intros prediction'. reflexivity.
    + intros preds. simpl.
      destruct (align_rows post wss join_by); simpl; try discriminate.
      intros H. now injection H as <-.
  - destruct words as [|ws wss]; [discriminate|].
    simpl in Hw. destruct (IH _ Hw) as [Hsame Hnth]. split.
    + intros prediction'. simpl. now rewrite Hsame.
    + intros preds. simpl.
      destruct (labels_of row (words_to_offsets ws join_by)); simpl;
        try discriminate.
      destruct (align_rows (pre ++ prediction :: post) wss join_by) as [rows|e|]
        eqn:Er; simpl; try discriminate.
      intros H. injection H as <-. simpl. now apply Hnth.
Qed.

End Lengths.

(** * Tactics for closed instances *)

(** [Exists] over a literal list, for a bound on integers. *)
Ltac prove_exists :=
  first [ solve [apply Exists_cons_hd; simpl; lia]
        | apply Exists_cons_tl; prove_exists ].

(** [Forall] over a literal list, each element by [tac]. *)
Ltac prove_forall tac :=
  repeat first [ apply Forall_nil | apply Forall_cons; [tac|] ].

Ltac prove_sorted :=
  prove_forall ltac:(unfold sorted_by_start;
                     repeat first [ apply SSorted_nil
                                  | apply SSorted_cons;
                                    [|prove_forall ltac:(unfold start_le; simpl; lia)] ]).

Ltac prove_rows_covered :=
  cbv [combine]; prove_forall ltac:(unfold row_covered, covered; cbn [fst snd];
                    match goal with
                    | |- context [words_to_offsets ?ws ?sep] =>
                        let v := eval vm_compute in (words_to_offsets ws sep) in
                        change (words_to_offsets ws sep) with v
                    end;
                    prove_forall ltac:(cbn [fst]; prove_exists)).

(** * Properties of the cache *)

Section Programs.

Context {V : Type}.

Lemma pbind_ok {A B : Type} (m : prog V A) (k : A -> prog V B) (w w' : World V) (b : B) :
  pbind m k w = (Ok b, w') ->
  exists a wm, m w = (Ok a, wm) /\ k a wm = (Ok b, w').
Proof.
  unfold pbind. destruct (m w) as [[a|e|] wm]; intros H; try discriminate.
  now exists a, wm.
Qed.

Lemma pbind_run {A B : Type} (m : prog V A) (k : A -> prog V B) (w wm : World V) (a : A) :
  m w = (Ok a, wm) -> pbind m k w = k a wm.
Proof. unfold pbind. now intros ->. Qed.

Lemma lift_ok {A : Type} (m : outcome A) (w w' : World V) (a : A) :
  lift m w = (Ok a, w') -> m = Ok a /\ w' = w.
Proof. unfold lift. intros H. injection H as -> ->. now split. Qed.

Lemma lift_run {A : Type} (m : outcome A) (w : World V) (a : A) :
  m = Ok a -> lift m w = (Ok a, w).
Proof. now intros ->. Qed.

Lemma dict_get_set {A : Type} (d : list (string * A)) (k : string) (a : A) :
  dict_get (dict_set d k a) k = Ok a.
Proof.
  induction d as [|[k' a'] d IH]; simpl.
  - now rewrite String.eqb_refl.
  - destruct (String.eqb k k') eqn:E; simpl.
    + now rewrite String.eqb_refl.
    + now rewrite E.
Qed.

End Programs.

Section Cache.

Context {M Metric V : Type} {base : EvaluatorBase M Metric V}.

(** Reading the first row of the table written for a result gives the result
    back. *)
Lemma first_row_table_of (result : Result V) :
  first_row (table_of result) = Ok result.
Proof.
  unfold first_row, table_of. induction result as [|[k v] result IH]; simpl;
    [reflexivity|].
  now rewrite IH.
Qed.

(** A successful [prepare_pipeline] made one call, on the input of the check,
    and succeeds alike in any world. *)
Lemma prepare_pipeline_ok (model : M) (w w' : World V) (pipe : Pipeline) :
  prepare_pipeline model w = (Ok pipe, w') ->
  forall v, prepare_pipeline model v = (Ok pipe, record_call dummy_input v).
Proof.
  unfold prepare_pipeline. intros H v.
  apply pbind_ok in H. destruct H as (pipe' & w1 & H1 & H).
  apply lift_ok in H1. destruct H1 as [Hpipe ->].
  apply pbind_ok in H. destruct H as (out & w2 & H2 & H).
  unfold call_pipe in H2. injection H2 as <- <-.
  apply pbind_ok in H. destruct H as (row & w3 & H3 & H).
  apply lift_ok in H3. destruct H3 as [Hrow ->].
  apply pbind_ok in H. destruct H as (p & w4 & H4 & H).
  apply lift_ok in H4. destruct H4 as [Hp ->].
  unfold ret in H. injection H as <- _.
  rewrite (pbind_run _ _ v v pipe') by now apply lift_run.
  rewrite (pbind_run _ _ v (record_call dummy_input v) (pipe' dummy_input))
    by reflexivity.
  rewrite (pbind_run _ _ _ (record_call dummy_input v) row) by now apply lift_run.
  rewrite (pbind_run _ _ _ (record_call dummy_input v) p) by now apply lift_run.
  reflexivity.
Qed.

(** [call_pipeline] always returns; it makes one call and leaves the files. *)
Lemma call_pipeline_run (pipe : Pipeline) (inputs : list string) (w : World V) :
  exists perf_results w',
    call_pipeline pipe inputs w = (Ok (pipe inputs, perf_results), w')
    /\ files w' = files w
    /\ calls w' = calls w ++ [inputs].
Proof.
  unfold call_pipeline, pbind, perf_counter, call_pipe, ret, record_call. simpl.
  eexists _, _. repeat split.
Qed.

(** A successful [compute_canary_hash] made one call, on the inputs prepared
    from the canary dataset, left the files, and gives the same hash in any
    world. *)
Lemma compute_canary_hash_ok (pipe : Pipeline) (input_column join_by label_column : string)
  (w w' : World V) (canary_hash : string) :
  compute_canary_hash pipe [input_column; join_by] label_column w
  = (Ok canary_hash, w') ->
  exists references canary_inputs,
    prepare_data (canary_dataset task input_column label_column)
      input_column label_column join_by
    = Ok (references, canary_inputs)
    /\ canary_hash <> ""
    /\ forall v, exists v',
        compute_canary_hash pipe [input_column; join_by] label_column v
        = (Ok canary_hash, v')
        /\ files v' = files v
        /\ calls v' = calls v ++ [canary_inputs].
Proof.
  unfold compute_canary_hash. intros H.
  apply pbind_ok in H. destruct H as (column & w1 & H1 & H).
  apply lift_ok in H1. destruct H1 as [Hcol ->]. simpl in Hcol.
  injection Hcol as <-.
  apply pbind_ok in H. destruct H as (sep & w2 & H2 & H).
  apply lift_ok in H2. destruct H2 as [Hsep ->]. simpl in Hsep.
  injection Hsep as <-.
  apply pbind_ok in H. destruct H as ([references canary_inputs] & w3 & H3 & H).
  apply lift_ok in H3. destruct H3 as [Hprep ->].
  apply pbind_ok in H. destruct H as ([predictions perf] & w4 & H4 & H).
  destruct (call_pipeline_run pipe canary_inputs w) as (perf' & w4' & Hcall & _).
  rewrite Hcall in H4. injection H4 as <- <- <-.
  unfold ret in H. injection H as <- _.
  exists references, canary_inputs. split; [exact Hprep|].
  split; [apply md5_dill_hexdigest|].
  intros v.
  destruct (call_pipeline_run pipe canary_inputs v) as (perf_v & v' & Hv & Hf & Hc).
  exists v'. split; [|now split].
  rewrite (pbind_run _ _ v v input_column) by reflexivity.
  rewrite (pbind_run _ _ v v join_by) by reflexivity.
  rewrite (pbind_run _ _ v v (references, canary_inputs)) by now apply lift_run.
  rewrite (pbind_run _ _ v v' _ Hv). reflexivity.
Qed.

(** After [compute_predictions] has returned with a cache file to write, the
    file holds the table of the result. *)
Lemma compute_predictions_cached (pipe : Pipeline) (pipe_inputs : list string)
  (data : Dataset) (metric : Metric) (references : list value)
  (resampling : Resampling) (input_column join_by canary_hash cache_file_name : string)
  (w w' : World V) (result : Result V) :
  canary_hash <> "" ->
  compute_predictions pipe pipe_inputs data metric references resampling
    input_column join_by (Some (canary_hash, cache_file_name)) w
  = (Ok result, w') ->
  dict_get (files w') cache_file_name = Ok (table_of result).
Proof.
  intros Hhash H. unfold compute_predictions in H.
  apply pbind_ok in H. destruct H as ([predictions perf] & w1 & _ & H).
  apply pbind_ok in H. destruct H as (rows & w2 & H2 & H).
  apply lift_ok in H2. destruct H2 as [_ ->].
  apply pbind_ok in H. destruct H as (words & w3 & H3 & H).
  apply lift_ok in H3. destruct H3 as [_ ->].
  apply pbind_ok in H. destruct H as (preds & w4 & H4 & H).
  apply lift_ok in H4. destruct H4 as [_ ->].
  apply pbind_ok in H. destruct H as (metric_results & w5 & H5 & H).
  apply lift_ok in H5. destruct H5 as [_ ->].
  cbv zeta in H.
  apply pbind_ok in H. destruct H as (u & w6 & H6 & H).
  unfold ret in H. injection H as <- <-.
  assert (Hne : String.eqb canary_hash "" = false) by now apply String.eqb_neq.
  rewrite Hne in H6. simpl in H6. unfold write_to_cache in H6.
  injection H6 as _ <-. simpl. apply dict_get_set.
Qed.

End Cache.

(** * Properties of [prepare_data] *)

Section Exceptions.

Lemma dict_get_raise {A : Type} (d : list (string * A)) (k : string) (e : exn) :
  dict_get d k = Raise e -> e = KeyError.
Proof.
  induction d as [|[k' a] d IH]; simpl.
  - intros H. now injection H as <-.
  - destruct (String.eqb k k'); [discriminate | exact IH].
Qed.

Lemma map_outcome_raise {A B : Type} (f : A -> outcome B) (l : list A) (e : exn) :
  map_outcome f l = Raise e -> exists x, In x l /\ f x = Raise e.
Proof.
  induction l as [|x l IH]; simpl; [discriminate|].
  destruct (f x) as [y|e'|] eqn:Ex; simpl.
  - destruct (map_outcome f l) as [ys|e''|]; simpl; try discriminate.
    intros H. destruct (IH H) as (x' & Hin & Hx'). exists x'. split; [now right | exact Hx'].
  - intros H. injection H as <-. exists x. split; [now left | exact Ex].
  - discriminate.
Qed.

Lemma iterate_raise (v : value) (e : exn) : iterate v = Raise e -> e = TypeError.
Proof. destruct v; simpl; try discriminate. intros H. now injection H as <-. Qed.

Lemma as_words_raise (v : value) (e : exn) : as_words v = Raise e -> e = TypeError.
Proof.
  unfold as_words. destruct (iterate v) as [elements|e'|] eqn:Ei; simpl.
  - intros H. apply map_outcome_raise in H. destruct H as (x & _ & Hx).
    destruct x; try discriminate; now injection Hx as <-.
  - intros H. injection H as <-. eapply iterate_raise, Ei.
  - discriminate.
Qed.

Lemma id_to_label_raise (label_list : list string) (label_id : value) (e : exn) :
  id_to_label label_list label_id = Raise e -> e = KeyError \/ e = TypeError.
Proof.
  destruct label_id as [z|s|l]; simpl.
  - destruct ((0 <=? z) && (z <? Z.of_nat (List.length label_list)));
      [destruct (nth_error label_list (Z.to_nat z))|];
      try discriminate; intros H; injection H as <-; now left.
  - intros H. injection H as <-. now left.
  - intros H. injection H as <-. now right.
Qed.

End Exceptions.

Section PrepareDataFacts.

Context {M Metric V : Type} {base : EvaluatorBase M Metric V}.

Lemma references_of_raise (data : Dataset) (label_column : string) (feature : Feature)
  (e : exn) :
  references_of data label_column feature = Raise e ->
  e = KeyError \/ e = TypeError
  \/ (e = NotImplementedError
      /\ (forall names, feature <> ClassLabel names)
      /\ String.prefix "int" (dtype feature) = true).
Proof.
  assert (Hother :
            (forall names, feature <> ClassLabel names) ->
            (if String.prefix "int" (dtype feature)
             then Raise NotImplementedError
             else dict_get (columns data) label_column) = Raise e ->
            e = KeyError \/ e = TypeError
            \/ (e = NotImplementedError
                /\ (forall names, feature <> ClassLabel names)
                /\ String.prefix "int" (dtype feature) = true)).
  { intros Hno. destruct (String.prefix "int" (dtype feature)) eqn:Ep.
    - intros H. injection H as <-. right. right. now repeat split.
    - intros H. left. eapply dict_get_raise, H. }
  destruct feature as [d|names|f]; simpl references_of.
  - apply Hother. discriminate.
  - clear Hother.
    destruct (dict_get (columns data) label_column) as [column|e'|] eqn:Ec; simpl.
    + intros H. apply map_outcome_raise in H. destruct H as (row & _ & Hrow).
      destruct (iterate row) as [ids|e'|] eqn:Ei; simpl in Hrow.
      * destruct (map_outcome (id_to_label names) ids) as [labels|e'|] eqn:El;
          simpl in Hrow; try discriminate.
        injection Hrow as <-. apply map_outcome_raise in El.
        destruct El as (x & _ & Hx). apply id_to_label_raise in Hx. tauto.
      * injection Hrow as <-. apply iterate_raise in Ei. tauto.
      * discriminate.
    + intros H. injection H as <-. apply dict_get_raise in Ec. tauto.
    + discriminate.
  - apply Hother. discriminate.
Qed.

(** With both columns present and accepted by the base class, [ValueError]
    is raised exactly when one of the two features is not a [Sequence]. *)
Lemma prepare_data_value_error_iff (data : Dataset)
  (input_column label_column join_by : string) (input_feature label_feature : Feature) :
  super_prepare_data data input_column label_column = Ok tt ->
  dict_get (features data) input_column = Ok input_feature ->
  dict_get (features data) label_column = Ok label_feature ->
  prepare_data data input_column label_column join_by = Raise ValueError
  <-> ~ ((exists f, input_feature = Sequence f) /\ (exists f, label_feature = Sequence f)).
Proof.
  intros Hsuper Hi Hl. unfold prepare_data. rewrite Hsuper, Hi. simpl.
  destruct input_feature as [d|names|fi].
  - split; [|reflexivity]. intros _ [[f Hf] _]. discriminate.
  - split; [|reflexivity]. intros _ [[f Hf] _]. discriminate.
  - rewrite Hl. simpl. destruct label_feature as [d|names|fl].
    + split; [|reflexivity]. intros _ [_ [f Hf]]. discriminate.
    + split; [|reflexivity]. intros _ [_ [f Hf]]. discriminate.
    + split.
      * intros H. exfalso.
        destruct (references_of data label_column fl) as [references|e|] eqn:Er;
          simpl in H.
        -- destruct (dict_get (columns data) input_column) as [rows|e|] eqn:Ec;
             simpl in H.
           ++ destruct (map_outcome
                          (fun x => ws <- as_words x ;; Ok (join join_by ws)) rows)
                as [inputs|e|] eqn:Em; simpl in H; try discriminate.
              injection H as ->. apply map_outcome_raise in Em.
              destruct Em as (x & _ & Hx).
              destruct (as_words x) as [ws|e|] eqn:Ew; simpl in Hx; try discriminate.
              injection Hx as ->. apply as_words_raise in Ew. discriminate.
           ++ injection H as ->. apply dict_get_raise in Ec. discriminate.
           ++ discriminate.
        -- injection H as ->. apply references_of_raise in Er.
           destruct Er as [Hr|[Hr|[Hr _]]]; discriminate.
        -- discriminate.
      * intros H. exfalso. apply H. split; eexists; reflexivity.
Qed.

(** Labels that are neither [ClassLabel]s nor of a [dtype] whose name starts
    with ["int"] are returned as the column holds them. *)
Lemma references_of_other (data : Dataset) (label_column : string) (feature : Feature) :
  (forall names, feature <> ClassLabel names) ->
  String.prefix "int" (dtype feature) = false ->
  references_of data label_column feature = dict_get (columns data) label_column.
Proof.
  intros Hno Hp. destruct feature as [d|names|f]; simpl in *.
  - now rewrite Hp.
  - now contradiction (Hno names).
  - reflexivity.
Qed.

End PrepareDataFacts.

(** * Evaluations *)

(** A word with no prediction at its start gets ["O"] when a later prediction
    exists, and the subscript raises when none is left for a later word. *)
Example fallback_label :
  predictions_processor [[tok "B-LOC" 0; tok "O" 6]] [["New"; "York"]] " "
  = Ok [["B-LOC"; "O"]].
Proof. reflexivity. Qed.

Example fallback_then_overrun :
  predictions_processor [[tok "B-LOC" 0; tok "O" 6]] [["New"; "York"; "is"]] " "
  = Raise IndexError.
Proof. reflexivity. Qed.

(** More prediction lists than word lists: [words[i]] raises. *)
Example more_predictions_than_words :
  predictions_processor [[tok "O" 0]; [tok "O" 0]] [["New"]] " " = Raise IndexError.
Proof. reflexivity. Qed.

(** A [ClassLabel] id outside the names raises [KeyError]. *)
Example id_to_label_outside :
  id_to_label ["O"; "B-LOC"] (VInt (-1)) = Raise KeyError
  /\ id_to_label ["O"; "B-LOC"] (VInt 2) = Raise KeyError
  /\ id_to_label ["O"; "B-LOC"] (VInt 1) = Ok "B-LOC".
Proof. repeat split. Qed.

(** * Layout of the spans *)

Section Layout.

Variable join_by : string.

Lemma spans_from_shift (words : list string) (d : Z) :
  forall start,
    spans_from join_by (start + d) words
    = map (shift d) (spans_from join_by start words).
Proof.
  induction words as [|w ws IH]; intros start; simpl; [reflexivity|].
  unfold shift at 1. simpl. f_equal.
  - f_equal; lia.
  - rewrite <- IH. f_equal. lia.
Qed.

Lemma spans_from_next (words : list string) :
  forall start k a b,
    nth_error (spans_from join_by start words) k = Some a ->
    nth_error (spans_from join_by start words) (S k) = Some b ->
    fst b = snd a + len join_by + 1.
Proof.
  induction words as [|w ws IH]; intros start k a b Ha Hb; [now destruct k|].
  destruct k as [|k].
  - simpl in Ha. injection Ha as <-. simpl in Hb.
    destruct ws as [|v ws]; [discriminate|]. simpl in Hb. now injection Hb as <-.
  - simpl in Ha, Hb. eapply IH; eassumption.
Qed.

Lemma spans_from_bounds (words : list string) :
  forall start,
    Forall (fun off => start <= fst off /\ fst off - 1 <= snd off)
      (spans_from join_by start words).
Proof.
  induction words as [|w ws IH]; intros start; simpl; constructor.
  - simpl. pose proof (len_nonneg w). lia.
  - eapply Forall_impl; [|apply IH]. simpl. intros off [H1 H2].
    pose proof (len_nonneg w). pose proof (len_nonneg join_by). lia.
Qed.

Lemma text_before_snoc (pre : list string) (w : string) :
  join join_by (pre ++ [w]) = (text_before join_by pre ++ w)%string.
Proof. rewrite join_split. simpl. now rewrite append_nil_r. Qed.

End Layout.

(** * Tokens grouped by word, batches *)

Section Groups.

(** The rule on a prediction list made of the tokens of each word in turn,
    after predictions that start before the first of the words. *)
Lemma labels_of_groups (words_offsets : list (Z * Z)) (groups : list (list Prediction.t)) :
  Forall2 word_tokens words_offsets groups ->
  StronglySorted starts_lt words_offsets ->
  StronglySorted ends_before words_offsets ->
  forall pre,
    (forall off, hd_error words_offsets = Some off ->
                 Forall (fun q => Prediction.start q < fst off) pre) ->
    labels_of (pre ++ List.concat groups) words_offsets
    = Ok (map Prediction.entity (flat_map (firstn 1) groups)).
Proof.
  induction 1 as [|off g offs gs Hg _ IH]; intros Hlt Hends pre Hpre;
    [reflexivity|].
  destruct Hg as (p & r & -> & Hp & Hr).
  apply StronglySorted_inv in Hlt. destruct Hlt as [Hlt Hlt_hd].
  apply StronglySorted_inv in Hends. destruct Hends as [Hends Hends_hd].
  cbn [labels_of List.concat]. unfold label_at.
  rewrite skip_before_app_lt by (apply Hpre; reflexivity).
  cbn [skip_before app].
  assert (E1 : (Prediction.start p <? fst off) = false) by lia.
  assert (E2 : (Prediction.start p =? fst off) = true) by lia.
  rewrite E1, E2.
  change (pre ++ p :: r ++ List.concat gs) with (pre ++ (p :: r) ++ List.concat gs).
  rewrite app_assoc, (IH Hlt Hends); [reflexivity|].
  intros off' Hoff'. destruct offs as [|o offs]; [discriminate|].
  simpl in Hoff'. injection Hoff' as ->.
  inversion Hlt_hd as [|? ? Hs _]; subst. inversion Hends_hd as [|? ? He _]; subst.
  unfold starts_lt in Hs. unfold ends_before in He.
  apply Forall_app. split.
  - eapply Forall_impl; [|apply Hpre; reflexivity]. simpl. intros q Hq. lia.
  - constructor; [lia|]. eapply Forall_impl; [|exact Hr]. simpl. intros q Hq. lia.
Qed.

(** A first prediction that starts after every word is never passed. *)
Lemma labels_of_late (p : Prediction.t) (rest : list Prediction.t)
  (words_offsets : list (Z * Z)) :
  Forall (fun off => fst off < Prediction.start p) words_offsets ->
  labels_of (p :: rest) words_offsets = Ok (repeat "O" (List.length words_offsets)).
Proof.
  induction 1 as [|off offs Hoff _ IH]; [reflexivity|].
  cbn [labels_of]. unfold label_at. cbn [skip_before].
  assert (E1 : (Prediction.start p <? fst off) = false) by lia.
  assert (E2 : (Prediction.start p =? fst off) = false) by lia.
  now rewrite E1, E2, IH.
Qed.

End Groups.

Section Batches.

Variable join_by : string.

Lemma align_rows_app (predictions1 predictions2 : list (list Prediction.t)) :
  forall words1 words2,
    List.length predictions1 = List.length words1 ->
    align_rows (predictions1 ++ predictions2) (words1 ++ words2) join_by
    = (preds1 <- align_rows predictions1 words1 join_by ;;
       preds2 <- align_rows predictions2 words2 join_by ;;
       Ok (preds1 ++ preds2)).
Proof.
  induction predictions1 as [|prediction ps IH]; intros words1 words2 Hlen.
  - destruct words1; [|discriminate]. simpl.
    now destruct (align_rows predictions2 words2 join_by).
  - destruct words1 as [|ws wss]; [discriminate|].
    simpl in Hlen. injection Hlen as Hlen. simpl.
    destruct (labels_of prediction (words_to_offsets ws join_by)); simpl;
      try reflexivity.
    rewrite (IH _ _ Hlen).
    destruct (align_rows ps wss join_by); simpl; try reflexivity.
    now destruct (align_rows predictions2 words2 join_by).
Qed.

Lemma align_rows_more_words (predictions : list (list Prediction.t)) :
  forall words more,
    (List.length predictions <= List.length words)%nat ->
    align_rows predictions (words ++ more) join_by
    = align_rows predictions words join_by.
Proof.
  induction predictions as [|prediction ps IH]; intros words more Hlen;
    [reflexivity|].
  destruct words as [|ws wss]; [simpl in Hlen; lia|].
  simpl in Hlen. simpl. rewrite IH by lia. reflexivity.
Qed.

End Batches.

(** * More on [prepare_data] *)

Section MapOutcome.

Context {A B : Type}.

Lemma map_outcome_ok (f : A -> outcome B) (l : list A) :
  forall ys, map_outcome f l = Ok ys <-> Forall2 (fun x y => f x = Ok y) l ys.
Proof.
  induction l as [|x l IH]; intros ys; simpl.
  - split.
    + intros H. injection H as <-. constructor.
    + intros H. now inversion H.
  - destruct (f x) as [y|e|] eqn:Ex; simpl.
    + destruct (map_outcome f l) as [zs|e|] eqn:El; simpl.
      * split.
        -- intros H. injection H as <-. constructor; [exact Ex | now apply IH].
        -- intros H. inversion H as [|? y' ? zs' Hy Hzs]; subst.
           apply IH in Hzs. congruence.
      * split; [discriminate|].
        intros H. inversion H as [|? y' ? zs' Hy Hzs]; subst.
        apply IH in Hzs. discriminate.
      * split; [discriminate|].
        intros H. inversion H as [|? y' ? zs' Hy Hzs]; subst.
        apply IH in Hzs. discriminate.
    + split; [discriminate|].
      intros H. inversion H as [|? y' ? zs' Hy Hzs]; subst. congruence.
    + split; [discriminate|].
      intros H. inversion H as [|? y' ? zs' Hy Hzs]; subst. congruence.
Qed.

(** When [e] is the only exception that [f] raises on [l] and it raises it
    somewhere, the comprehension raises [e]. *)
Lemma map_outcome_raises (f : A -> outcome B) (l : list A) (e : exn) :
  Forall (fun x => (exists y, f x = Ok y) \/ f x = Raise e) l ->
  Exists (fun x => f x = Raise e) l ->
  map_outcome f l = Raise e.
Proof.
  induction 1 as [|x l Hx _ IH]; intros Hex; [inversion Hex|].
  simpl. destruct Hx as [(y & Hy)|Hx].
  - rewrite Hy. simpl. inversion Hex as [? ? H|? ? H]; subst; [congruence|].
    now rewrite (IH H).
  - now rewrite Hx.
Qed.

End MapOutcome.

Section JoinedInputs.

Variable join_by : string.

Lemma cursor_after_snoc (pre : list string) (w : string) :
  cursor_after join_by 0 (pre ++ [w])
  = cursor_after join_by 0 pre + len w - 1 + len join_by + 1.
Proof.
  rewrite !cursor_after_text.
  assert (E : text_before join_by (pre ++ [w])
              = (text_before join_by pre ++ w ++ join_by)%string).
  { unfold text_before at 1. destruct (pre ++ [w]) as [|x l] eqn:El.
    - destruct pre; discriminate.
    - rewrite <- El, text_before_snoc. now rewrite append_assoc. }
  rewrite E, !len_append. lia.
Qed.

(** The spans of the words that follow [pre] cut these words out of the
    joined text. *)
Lemma spans_slice (rest : list string) :
  forall pre,
    Forall2 (fun w off =>
               slice (join join_by (pre ++ rest)) (fst off) (snd off + 1) = w)
      rest (spans_from join_by (cursor_after join_by 0 pre) rest).
Proof.
  induction rest as [|w rest IH]; intros pre; simpl; constructor.
  - simpl. rewrite join_split, cursor_after_text.
    replace (0 + len (text_before join_by pre) + len w - 1 + 1)
      with (len (text_before join_by pre) + len w) by lia.
    apply slice_middle.
  - specialize (IH (pre ++ [w])). rewrite <- app_assoc in IH. simpl in IH.
    now rewrite cursor_after_snoc in IH.
Qed.

Lemma words_to_offsets_slice (ws : list string) :
  Forall2 (fun w off => slice (join join_by ws) (fst off) (snd off + 1) = w)
    ws (words_to_offsets ws join_by).
Proof. rewrite words_to_offsets_spans. apply (spans_slice ws []). Qed.

End JoinedInputs.

Section ClassLabels.

Variable label_list : list string.

Lemma id_to_label_ok (label_id : value) (label : string) :
  id_to_label label_list label_id = Ok label -> names_id label_list label_id label.
Proof.
  destruct label_id as [z|s|l]; simpl; try discriminate.
  destruct ((0 <=? z) && (z <? Z.of_nat (List.length label_list))) eqn:E;
    [|discriminate].
  destruct (nth_error label_list (Z.to_nat z)) as [name|] eqn:En; [|discriminate].
  intros H. injection H as <-. exists z. split; [reflexivity|]. split; [lia | exact En].
Qed.

Lemma id_to_label_out_of_range (z : Z) :
  z < 0 \/ Z.of_nat (List.length label_list) <= z ->
  id_to_label label_list (VInt z) = Raise KeyError.
Proof.
  intros H. simpl.
  assert (E : (0 <=? z) && (z <? Z.of_nat (List.length label_list)) = false) by lia.
  now rewrite E.
Qed.

Lemma id_to_label_int_cases (z : Z) :
  (exists label, id_to_label label_list (VInt z) = Ok label)
  \/ id_to_label label_list (VInt z) = Raise KeyError.
Proof.
  simpl. destruct ((0 <=? z) && (z <? Z.of_nat (List.length label_list)));
    [|now right].
  destruct (nth_error label_list (Z.to_nat z)) as [name|]; [left; now eexists | now right].
Qed.

Lemma row_labels_ids_cases (zs : list Z) :
  (exists ref, row_labels label_list (ids_row zs) = Ok ref)
  \/ row_labels label_list (ids_row zs) = Raise KeyError.
Proof.
  unfold row_labels, ids_row. simpl.
  induction zs as [|z zs IH]; simpl; [left; now eexists|].
  destruct (id_to_label_int_cases z) as [(label & Hl)|Hl]; simpl in Hl; rewrite Hl;
    simpl; [|now right].
  destruct (map_outcome (id_to_label label_list) (map VInt zs)) as [labels|e|];
    simpl in *.
  - left. now eexists.
  - destruct IH as [(ref & H)|H]; [discriminate | now right].
  - destruct IH as [(ref & H)|H]; discriminate.
Qed.

Lemma row_labels_ids_outside (zs : list Z) :
  Exists (fun z => z < 0 \/ Z.of_nat (List.length label_list) <= z) zs ->
  row_labels label_list (ids_row zs) = Raise KeyError.
Proof.
  intros H. unfold row_labels, ids_row. simpl.
  rewrite (map_outcome_raises (id_to_label label_list) (map VInt zs) KeyError);
    [reflexivity | |].
  - apply Forall_forall. intros x Hx. apply in_map_iff in Hx.
    destruct Hx as (z & <- & _). apply id_to_label_int_cases.
  - apply Exists_exists in H. destruct H as (z & Hin & Hz).
    apply Exists_exists. exists (VInt z). split; [now apply in_map|].
    now apply id_to_label_out_of_range.
Qed.

End ClassLabels.

Section PrepareDataMore.

Context {M Metric V : Type} {base : EvaluatorBase M Metric V}.

(** What a successful call has gone through. *)
Lemma prepare_data_ok_inv (data : Dataset) (input_column label_column join_by : string)
  (references : list value) (pipeline_inputs : list string) :
  prepare_data data input_column label_column join_by
  = Ok (references, pipeline_inputs) ->
  exists input_feature feature rows,
    dict_get (features data) input_column = Ok (Sequence input_feature)
    /\ dict_get (features data) label_column = Ok (Sequence feature)
    /\ references_of data label_column feature = Ok references
    /\ dict_get (columns data) input_column = Ok rows
    /\ map_outcome (fun x => ws <- as_words x ;; Ok (join join_by ws)) rows
       = Ok pipeline_inputs.
Proof.
  unfold prepare_data.
  destruct (super_prepare_data data input_column label_column); cbn [bind];
    try discriminate.
  destruct (dict_get (features data) input_column) as [[d|names|fi]| |];
    cbn [bind]; try discriminate.
  destruct (dict_get (features data) label_column) as [[d|names|fl]| |];
    cbn [bind]; try discriminate.
  destruct (references_of data label_column fl) as [refs| |] eqn:Er; cbn [bind];
    try discriminate.
  destruct (dict_get (columns data) input_column) as [rows| |]; cbn [bind];
    try discriminate.
  destruct (map_outcome (fun x => ws <- as_words x ;; Ok (join join_by ws)) rows)
    as [inputs| |] eqn:Em; cbn [bind]; try discriminate.
  intros H. injection H as <- <-. exists fi, fl, rows. repeat split; assumption.
Qed.

Lemma references_of_class_label (data : Dataset) (label_column : string)
  (names : list string) :
  references_of data label_column (ClassLabel names)
  = (column <- dict_get (columns data) label_column ;;
     map_outcome (row_labels names) column).
Proof. reflexivity. Qed.

End PrepareDataMore.

(** * Programs and the cache files *)

Section Files.

Context {V : Type}.

Lemma keeps_ret {A : Type} (a : A) : keeps_files (V := V) (ret a).
Proof. intros w. reflexivity. Qed.

Lemma keeps_lift {A : Type} (m : outcome A) : keeps_files (V := V) (lift m).
Proof. intros w. reflexivity. Qed.

Lemma keeps_pbind {A B : Type} (m : prog V A) (k : A -> prog V B) :
  keeps_files m -> (forall a, keeps_files (k a)) -> keeps_files (pbind m k).
Proof.
  intros Hm Hk w. unfold pbind. specialize (Hm w).
  destruct (m w) as [[a|e|] w']; simpl in *; [|exact Hm | exact Hm].
  now rewrite Hk.
Qed.

Lemma ignores_ret {A : Type} (a : A) : ignores_files (V := V) (ret a).
Proof. intros w v H. now split. Qed.

Lemma ignores_lift {A : Type} (m : outcome A) : ignores_files (V := V) (lift m).
Proof. intros w v H. now split. Qed.

Lemma ignores_pbind {A B : Type} (m : prog V A) (k : A -> prog V B) :
  ignores_files m -> (forall a, ignores_files (k a)) -> ignores_files (pbind m k).
Proof.
  intros Hm Hk w v H. unfold pbind. destruct (Hm w v H) as [Ho Ht].
  destruct (m w) as [[a|e|] w']; destruct (m v) as [[a'|e'|] v'];
    simpl in *; try discriminate; try (split; congruence).
  injection Ho as <-. now apply Hk.
Qed.

Lemma keeps_perf_counter : keeps_files (V := V) perf_counter.
Proof. intros w. reflexivity. Qed.

Lemma ignores_perf_counter : ignores_files (V := V) perf_counter.
Proof. intros w v H. unfold perf_counter. simpl. now rewrite H. Qed.

Lemma keeps_call_pipe (pipe : Pipeline) (inputs : list string) :
  keeps_files (V := V) (call_pipe pipe inputs).
Proof. intros w. reflexivity. Qed.

Lemma ignores_call_pipe (pipe : Pipeline) (inputs : list string) :
  ignores_files (V := V) (call_pipe pipe inputs).
Proof. intros w v H. now split. Qed.

End Files.

Section UncachedFiles.

Context {M Metric V : Type} {base : EvaluatorBase M Metric V}.

Lemma keeps_call_pipeline (pipe : Pipeline) (inputs : list string) :
  keeps_files (call_pipeline pipe inputs).
Proof.
  unfold call_pipeline.
  apply keeps_pbind; [apply keeps_perf_counter | intros start_time].
  apply keeps_pbind; [apply keeps_call_pipe | intros pipe_output].
  apply keeps_pbind; [apply keeps_perf_counter | intros end_time].
  apply keeps_ret.
Qed.

Lemma ignores_call_pipeline (pipe : Pipeline) (inputs : list string) :
  ignores_files (call_pipeline pipe inputs).
Proof.
  unfold call_pipeline.
  apply ignores_pbind; [apply ignores_perf_counter | intros start_time].
  apply ignores_pbind; [apply ignores_call_pipe | intros pipe_output].
  apply ignores_pbind; [apply ignores_perf_counter | intros end_time].
  apply ignores_ret.
Qed.

Lemma keeps_prepare_pipeline (model : M) : keeps_files (prepare_pipeline model).
Proof.
  unfold prepare_pipeline.
  apply keeps_pbind; [apply keeps_lift | intros pipe].
  apply keeps_pbind; [apply keeps_call_pipe | intros dummy_output].
  apply keeps_pbind; [apply keeps_lift | intros row].
  apply keeps_pbind; [apply keeps_lift | intros p].
  apply keeps_ret.
Qed.

Lemma ignores_prepare_pipeline (model : M) : ignores_files (prepare_pipeline model).
Proof.
  unfold prepare_pipeline.
  apply ignores_pbind; [apply ignores_lift | intros pipe].
  apply ignores_pbind; [apply ignores_call_pipe | intros dummy_output].
  apply ignores_pbind; [apply ignores_lift | intros row].
  apply ignores_pbind; [apply ignores_lift | intros p].
  apply ignores_ret.
Qed.

Lemma keeps_compute_predictions (pipe : Pipeline) (pipe_inputs : list string)
  (data : Dataset) (metric : Metric) (references : list value)
  (resampling : Resampling) (input_column join_by : string) :
  keeps_files
    (compute_predictions pipe pipe_inputs data metric references resampling
       input_column join_by None).
Proof.
  unfold compute_predictions.
  apply keeps_pbind; [apply keeps_call_pipeline | intros [predictions perf]].
  apply keeps_pbind; [apply keeps_lift | intros rows].
  apply keeps_pbind; [apply keeps_lift | intros words].
  apply keeps_pbind; [apply keeps_lift | intros labels].
  apply keeps_pbind; [apply keeps_lift | intros metric_results].
  cbv zeta.
  apply keeps_pbind; [apply keeps_ret | intros u]. apply keeps_ret.
Qed.

Lemma ignores_compute_predictions (pipe : Pipeline) (pipe_inputs : list string)
  (data : Dataset) (metric : Metric) (references : list value)
  (resampling : Resampling) (input_column join_by : string) :
  ignores_files
    (compute_predictions pipe pipe_inputs data metric references resampling
       input_column join_by None).
Proof.
  unfold compute_predictions.
  apply ignores_pbind; [apply ignores_call_pipeline | intros [predictions perf]].
  apply ignores_pbind; [apply ignores_lift | intros rows].
  apply ignores_pbind; [apply ignores_lift | intros words].
  apply ignores_pbind; [apply ignores_lift | intros labels].
  apply ignores_pbind; [apply ignores_lift | intros metric_results].
  cbv zeta.
  apply ignores_pbind; [apply ignores_ret | intros u]. apply ignores_ret.
Qed.

End UncachedFiles.

(** * Dicts *)

Section Dicts.

Context {A : Type}.

Lemma dict_get_set_other (d : list (string * A)) (k k' : string) (a : A) :
  k' <> k -> dict_get (dict_set d k a) k' = dict_get d k'.
Proof.
  intros Hne. apply String.eqb_neq in Hne.
  induction d as [|[k0 a0] d IH]; simpl.
  - now rewrite Hne.
  - destruct (String.eqb k k0) eqn:E; simpl.
    + apply String.eqb_eq in E. subst k0. now rewrite Hne.
    + destruct (String.eqb k' k0); [reflexivity | exact IH].
Qed.

Lemma dict_get_absent (d : list (string * A)) (k : string) :
  ~ In k (map fst d) -> dict_get d k = Raise KeyError.
Proof.
  induction d as [|[k0 a0] d IH]; simpl; [reflexivity|].
  intros H. destruct (String.eqb k k0) eqn:E.
  - apply String.eqb_eq in E. subst. exfalso. apply H. now left.
  - apply IH. intros Hin. apply H. now right.
Qed.

Lemma dict_get_cases (d : list (string * A)) (k : string) :
  (exists a, dict_get d k = Ok a) \/ dict_get d k = Raise KeyError.
Proof.
  induction d as [|[k0 a0] d IH]; simpl; [now right|].
  destruct (String.eqb k k0); [left; now eexists | exact IH].
Qed.

(** After [d.update(other)] a key of [other] has the value of [other] and
    any other key has the value it had in [d]. *)
Lemma dict_get_update (other : list (string * A)) :
  unique_keys other ->
  forall d k,
    dict_get (dict_update d other) k
    = match dict_get other k with
      | Ok a => Ok a
      | _ => dict_get d k
      end.
Proof.
  unfold unique_keys, dict_update.
  induction other as [|[k0 a0] other IH]; intros Hu d k; simpl; [reflexivity|].
  simpl in Hu. inversion Hu as [|? ? Hnot Hu']; subst.
  rewrite (IH Hu'). destruct (String.eqb k k0) eqn:E.
  - apply String.eqb_eq in E. subst k0.
    now rewrite (dict_get_absent _ _ Hnot), dict_get_set.
  - apply String.eqb_neq in E.
    now rewrite (dict_get_set_other _ _ _ _ E).
Qed.

End Dicts.

(** * The path of [compute] without the cache *)

Section Uncached.

Context {M Metric V : Type} {base : EvaluatorBase M Metric V}.

Lemma call_pipeline_eq (pipe : Pipeline) (inputs : list string) (w : World V) :
  call_pipeline pipe inputs w
  = (Ok (pipe inputs,
         compute_time_perf (hd 0 (ticks w)) (hd 0 (tl (ticks w)))
           (List.length (pipe inputs))),
     {| files := files w;
        calls := calls w ++ [inputs];
        ticks := tl (tl (ticks w)) |}).
Proof. reflexivity. Qed.

(** What a call that returned without the cache has gone through. *)
Lemma compute_uncached_inv (model : M) (data : Dataset) (split : option string)
  (metric : Metric) (resampling : Resampling)
  (input_column label_column join_by : string)
  (w w' : World V) (result : Result V) :
  compute model data split metric resampling input_column label_column join_by false w
  = (Ok result, w') ->
  exists data' references pipe_inputs pipe metric' rows words labels metric_results,
    load_data data split = Ok data'
    /\ prepare_data data' input_column label_column join_by
       = Ok (references, pipe_inputs)
    /\ super_prepare_pipeline model = Ok pipe
    /\ prepare_metric metric = Ok metric'
    /\ dict_get (columns data') input_column = Ok rows
    /\ map_outcome as_words rows = Ok words
    /\ predictions_processor (pipe pipe_inputs) words join_by = Ok labels
    /\ compute_metric metric' references labels resampling = Ok metric_results
    /\ result
       = dict_update (dict_update [] metric_results)
           (compute_time_perf (hd 0 (ticks w)) (hd 0 (tl (ticks w)))
              (List.length (pipe pipe_inputs)))
    /\ calls w' = calls w ++ [dummy_input; pipe_inputs].
Proof.
  unfold compute. intros H.
  apply pbind_ok in H. destruct H as (data' & wa & Ha & H).
  apply lift_ok in Ha. destruct Ha as [Hdata ->].
  apply pbind_ok in H. destruct H as ([references pipe_inputs] & wb & Hb & H).
  apply lift_ok in Hb. destruct Hb as [Hprep ->].
  apply pbind_ok in H. destruct H as (pipe & wc & Hpipe & H).
  pose proof (prepare_pipeline_ok _ _ _ _ Hpipe w) as Hpipe'.
  rewrite Hpipe in Hpipe'. injection Hpipe' as ->.
  unfold prepare_pipeline in Hpipe.
  apply pbind_ok in Hpipe. destruct Hpipe as (pipe' & wp & Hsuper & Hpipe).
  apply lift_ok in Hsuper. destruct Hsuper as [Hsuper ->].
  assert (pipe' = pipe) as ->.
  { apply pbind_ok in Hpipe. destruct Hpipe as (out & w1 & _ & Hpipe).
    apply pbind_ok in Hpipe. destruct Hpipe as (row & w2 & _ & Hpipe).
    apply pbind_ok in Hpipe. destruct Hpipe as (p & w3 & _ & Hpipe).
    unfold ret in Hpipe. now injection Hpipe as ->. }
  apply pbind_ok in H. destruct H as (metric' & wd & Hd & H).
  apply lift_ok in Hd. destruct Hd as [Hmetric ->].
  unfold compute_predictions in H.
  apply pbind_ok in H. destruct H as ([predictions perf] & we & Hcall & H).
  rewrite call_pipeline_eq in Hcall. injection Hcall as <- <- <-.
  apply pbind_ok in H. destruct H as (rows & wf & Hf & H).
  apply lift_ok in Hf. destruct Hf as [Hrows ->].
  apply pbind_ok in H. destruct H as (words & wg & Hg & H).
  apply lift_ok in Hg. destruct Hg as [Hwords ->].
  apply pbind_ok in H. destruct H as (labels & wh & Hh & H).
  apply lift_ok in Hh. destruct Hh as [Hlabels ->].
  apply pbind_ok in H. destruct H as (metric_results & wi & Hi & H).
  apply lift_ok in Hi. destruct Hi as [Hresults ->].
  cbv zeta in H.
  apply pbind_ok in H. destruct H as (u & wj & Hj & H).
  unfold ret in Hj, H. injection Hj as _ <-. injection H as <- <-.
  exists data', references, pipe_inputs, pipe, metric', rows, words, labels,
    metric_results.
  repeat split; try assumption.
  simpl. now rewrite <- app_assoc.
Qed.

End Uncached.

(** * The path of [compute] through the cache *)

Section CacheHit.

Context {M Metric V : Type} {base : EvaluatorBase M Metric V}.

Lemma prepare_pipeline_run (model : M) (pipe : Pipeline)
  (row : list Prediction.t) (p : Prediction.t) (w : World V) :
  super_prepare_pipeline model = Ok pipe ->
  getitem (pipe dummy_input) 0 = Ok row ->
  getitem row 0 = Ok p ->
  prepare_pipeline model w = (Ok pipe, record_call dummy_input w).
Proof.
  intros Hsuper Hrow Hp. unfold prepare_pipeline.
  rewrite (pbind_run _ _ w w pipe) by now apply lift_run.
  rewrite (pbind_run _ _ w (record_call dummy_input w) (pipe dummy_input))
    by reflexivity.
  rewrite (pbind_run _ _ _ (record_call dummy_input w) row) by now apply lift_run.
  rewrite (pbind_run _ _ _ (record_call dummy_input w) p) by now apply lift_run.
  reflexivity.
Qed.

Lemma compute_canary_hash_run (pipe : Pipeline)
  (input_column join_by label_column : string)
  (references : list value) (canary_inputs : list string) (w : World V) :
  prepare_data (canary_dataset task input_column label_column)
    input_column label_column join_by
  = Ok (references, canary_inputs) ->
  compute_canary_hash pipe [input_column; join_by] label_column w
  = (Ok (md5_dill (pipe canary_inputs)),
     {| files := files w;
        calls := calls w ++ [canary_inputs];
        ticks := tl (tl (ticks w)) |}).
Proof.
  intros Hprep. unfold compute_canary_hash.
  rewrite (pbind_run _ _ w w input_column) by reflexivity.
  rewrite (pbind_run _ _ w w join_by) by reflexivity.
  rewrite (pbind_run _ _ w w (references, canary_inputs)) by now apply lift_run.
  rewrite (pbind_run _ _ w _ _ (call_pipeline_eq pipe canary_inputs w)).
  reflexivity.
Qed.

End CacheHit.

(** * Names of cache files *)

Section Names.

Lemma append_cancel_l (a x y : string) : (a ++ x = a ++ y)%string -> x = y.
Proof.
  induction a as [|c a IH]; simpl; [trivial|].
  intros H. injection H as H. now apply IH.
Qed.

Lemma append_cancel_r (s : string) :
  forall x y, (x ++ s = y ++ s)%string -> x = y.
Proof.
  assert (Hlen : forall x y, (x ++ s = y ++ s)%string ->
                             String.length x = String.length y).
  { intros x y H. apply (f_equal String.length) in H.
    rewrite !string_length_append in H. lia. }
  induction x as [|c x IH]; intros [|d y] H.
  - reflexivity.
  - apply Hlen in H. discriminate.
  - apply Hlen in H. discriminate.
  - simpl in H. injection H as -> H. f_equal. now apply IH.
Qed.

(** A text is cut in one way only at its first [-]. *)
Lemma dash_split (a : string) :
  forall a' r r',
    dash_free a -> dash_free a' ->
    (a ++ "-" ++ r = a' ++ "-" ++ r')%string ->
    a = a' /\ r = r'.
Proof.
  unfold dash_free.
  induction a as [|c a IH]; intros [|c' a'] r r' Ha Ha' H; simpl in *.
  - injection H as ->. now split.
  - injection H as <- _. exfalso. apply Ha'. now left.
  - injection H as -> _. exfalso. apply Ha. now left.
  - injection H as <- H.
    destruct (IH a' r r') as [-> ->]; [tauto | tauto | exact H | now split].
Qed.

Lemma path_join_cancel (dir x y : string) :
  path_join dir x = path_join dir y -> x = y.
Proof.
  unfold path_join. destruct (String.eqb dir ""); [trivial|].
  destruct (String.eqb (substring (String.length dir - 1) 1 dir) "/").
  - apply append_cancel_l.
  - intros H. apply append_cancel_l in H. now apply append_cancel_l in H.
Qed.

End Names.

(** * Predictions added at the end *)

Section Trailing.

Lemma skip_before_app_cons (word_start : Z) (prediction more : list Prediction.t)
  (p : Prediction.t) (rest : list Prediction.t) :
  skip_before word_start prediction = p :: rest ->
  skip_before word_start (prediction ++ more) = p :: rest ++ more.
Proof.
  induction prediction as [|q l IH]; simpl; [discriminate|].
  destruct (Prediction.start q <? word_start); [exact IH|].
  intros H. injection H as -> ->. reflexivity.
Qed.

Lemma labels_of_app (prediction more : list Prediction.t)
  (words_offsets : list (Z * Z)) :
  forall labels,
    labels_of prediction words_offsets = Ok labels ->
    labels_of (prediction ++ more) words_offsets = Ok labels.
Proof.
  induction words_offsets as [|off rest IH]; intros labels; simpl; [trivial|].
  unfold label_at.
  destruct (skip_before (fst off) prediction) as [|p r] eqn:E; [discriminate|].
  rewrite (skip_before_app_cons _ _ more _ _ E).
  destruct (labels_of prediction rest) as [ls|e|]; simpl; try discriminate.
  intros H. now rewrite (IH ls eq_refl).
Qed.

Lemma align_rows_trailing (join_by : string)
  (predictions predictions' : list (list Prediction.t)) :
  Forall2 (fun prediction prediction' => exists more, prediction' = prediction ++ more)
    predictions predictions' ->
  forall words preds,
    align_rows predictions words join_by = Ok preds ->
    align_rows predictions' words join_by = Ok preds.
Proof.
  induction 1 as [|p p' ps ps' (more & ->) _ IH]; intros words preds; simpl;
    [trivial|].
  destruct words as [|ws wss]; [discriminate|].
  destruct (labels_of p (words_to_offsets ws join_by)) as [labels|e|] eqn:El;
    simpl; try discriminate.
  rewrite (labels_of_app _ more _ _ El). simpl.
  destruct (align_rows ps wss join_by) as [rows|e|] eqn:Er; simpl; try discriminate.
  now rewrite (IH _ _ Er).
Qed.

End Trailing.

(** * The offset reconstructor *)

(** C3: for every word list and separator, [words_to_offsets] returns one pair
    per word; the starts are non-decreasing; the pair of a word is exactly the
    place of that word in [join_by.join(words)], with the end inclusive: the
    word is preceded there by the earlier words, each followed by the
    separator, its start is the length of that text, its end is the index of
    its last character, and the slice from start to end + 1 is the word.  For
    [["New", "York", "is"]] and [" "] the result is [(0,2), (4,7), (9,10)]. *)
Theorem words_to_offsets_delimits_words (words : list string) (join_by : string) :
  let offsets := words_to_offsets words join_by in
  List.length offsets = List.length words
  /\ StronglySorted starts_le offsets
  /\ (forall pre word post,
         words = pre ++ word :: post ->
         exists start end_,
           nth_error offsets (List.length pre) = Some (start, end_)
           /\ join join_by words
              = (text_before join_by pre ++ word ++ text_after join_by post)%string
           /\ start = len (text_before join_by pre)
           /\ end_ = start + len word - 1
           /\ slice (join join_by words) start (end_ + 1) = word)
  /\ words_to_offsets ["New"; "York"; "is"] " " = [(0, 2); (4, 7); (9, 10)].
Proof.
  cbv zeta. rewrite words_to_offsets_spans. repeat split.
  - apply spans_from_length.
  - apply spans_from_starts_le.
  - intros pre word post ->.
    exists (len (text_before join_by pre)),
      (len (text_before join_by pre) + len word - 1).
    rewrite spans_from_app, nth_error_app2; rewrite spans_from_length; [|lia].
    rewrite Nat.sub_diag, cursor_after_text, join_split. simpl.
    repeat split.
    replace (len (text_before join_by pre) + len word - 1 + 1)
      with (len (text_before join_by pre) + len word) by lia.
    apply slice_middle.
Qed.

(** C5, the claim as stated fails: with an empty separator an empty word does
    not move the cursor, so two spans share their start. *)
Lemma words_to_offsets_starts_not_strict :
  words_to_offsets [""; "a"] "" = [(0, -1); (0, 0)]
  /\ ~ StronglySorted starts_lt (words_to_offsets [""; "a"] "").
Proof.
  split; [reflexivity|].
  intros H. apply StronglySorted_inv in H. destruct H as [_ H].
  inversion H as [|? ? Hlt _]; subst. unfold starts_lt in Hlt. simpl in Hlt. lia.
Qed.

(** C5, amended: for every word list and separator the spans are pairwise
    non-overlapping (an earlier span ends before a later one starts) and their
    starts are non-decreasing; the starts are strictly increasing exactly when
    the separator is not empty or no word but the last is empty. *)
Theorem words_to_offsets_spans_ordered (words : list string) (join_by : string) :
  let offsets := words_to_offsets words join_by in
  StronglySorted ends_before offsets
  /\ StronglySorted starts_le offsets
  /\ (StronglySorted starts_lt offsets
      <-> (join_by <> "" \/ Forall (fun w => w <> "") (removelast words))).
Proof.
  cbv zeta. rewrite words_to_offsets_spans. split; [|split; [|split]].
  - apply spans_from_ends_before.
  - apply spans_from_starts_le.
  - intros Hs. destruct (string_dec join_by "") as [Hsep|Hsep]; [right|now left].
    eapply spans_from_starts_lt_inv; [exact Hs | exact Hsep].
  - intros Hmove. now apply spans_from_starts_lt.
Qed.

(** C6: a zero-length word met with the cursor at [start] gets the pair
    [(start, start - 1)] like any other word: the loop body appends that pair
    and moves the cursor by the length of the separator, the pair stands in the
    output at the position of the word, and the later words are placed from
    [start + len(join_by)]. *)
Theorem words_to_offsets_zero_length_word (pre post : list string) (join_by : string) :
  let st := offsets_loop join_by pre ([], 0) in
  let start := snd st in
  offsets_step join_by st "" = (fst st ++ [(start, start - 1)], start + len join_by)
  /\ words_to_offsets (pre ++ "" :: post) join_by
     = words_to_offsets pre join_by
         ++ (start, start - 1)
         :: fst (offsets_loop join_by post ([], start + len join_by))
  /\ nth_error (words_to_offsets (pre ++ "" :: post) join_by) (List.length pre)
     = Some (start, start - 1).
Proof.
  cbv zeta. rewrite !words_to_offsets_spans, !offsets_loop_spec. simpl.
  assert (E : spans_from join_by 0 (pre ++ "" :: post)
              = spans_from join_by 0 pre
                  ++ (cursor_after join_by 0 pre, cursor_after join_by 0 pre - 1)
                  :: spans_from join_by (cursor_after join_by 0 pre + len join_by) post).
  { rewrite spans_from_app. simpl. change (len "") with 0.
    replace (cursor_after join_by 0 pre + 0 - 1 + len join_by + 1)
      with (cursor_after join_by 0 pre + len join_by) by lia.
    now replace (cursor_after join_by 0 pre + 0 - 1)
      with (cursor_after join_by 0 pre - 1) by lia. }
  repeat split.
  - change (len "") with 0.
    replace (cursor_after join_by 0 pre + 0 - 1 + len join_by + 1)
      with (cursor_after join_by 0 pre + len join_by) by lia.
    now replace (cursor_after join_by 0 pre + 0 - 1)
      with (cursor_after join_by 0 pre - 1) by lia.
  - exact E.
  - rewrite E, nth_error_app2; rewrite spans_from_length; [|lia].
    now rewrite Nat.sub_diag.
Qed.

(** * The label aligner *)

(** C1: when there is a word list for every prediction list, every prediction
    list is sorted ascending by start and no cursor runs past the end of its
    list (each word has a prediction that does not start before it),
    [predictions_processor] returns, for every example, exactly one label per
    word span: with [p] the first prediction left after skipping those that
    start strictly before the word -- on a sorted list, after removing every
    prediction that starts before the word -- the label is the entity of [p]
    when [p] starts at the word's start and ["O"] when [p] starts after it. *)
Theorem predictions_processor_emits_rule (predictions : list (list Prediction.t))
  (words : list (list string)) (join_by : string) :
  (List.length predictions <= List.length words)%nat ->
  Forall sorted_by_start predictions ->
  Forall (row_covered join_by) (combine predictions words) ->
  exists preds,
    predictions_processor predictions words join_by = Ok preds
    /\ Forall2 (row_emits join_by) preds (combine predictions words)
    /\ Forall (fun prediction =>
                 forall word_start,
                   skip_before word_start prediction
                   = filter (not_before word_start) prediction)
         predictions.
Proof.
  intros Hlen Hsorted Hcov.
  destruct (align_rows_covered join_by predictions words Hlen Hcov) as (preds & H).
  exists preds. rewrite predictions_processor_spec. split; [exact H|]. split.
  - now apply align_rows_ok_iff in H.
  - eapply Forall_impl; [|exact Hsorted].
    intros prediction Hp word_start. now apply skip_before_filter.
Qed.

(** The exact-match case of the specification: predictions starting at 0, 4
    and 9 for the words ["New"], ["York"], ["is"]. *)
Lemma predictions_processor_emits_rule_witness :
  let predictions := [[tok "B-LOC" 0; tok "I-LOC" 4; tok "O" 9]] in
  let words := [["New"; "York"; "is"]] in
  ((List.length predictions <= List.length words)%nat
   /\ Forall sorted_by_start predictions
   /\ Forall (row_covered " ") (combine predictions words))
  /\ predictions_processor predictions words " " = Ok [["B-LOC"; "I-LOC"; "O"]]
  /\ exists preds,
      predictions_processor predictions words " " = Ok preds
      /\ Forall2 (row_emits " ") preds (combine predictions words)
      /\ Forall (fun prediction =>
                   forall word_start,
                     skip_before word_start prediction
                     = filter (not_before word_start) prediction)
           predictions.
Proof.
  cbv zeta.
  assert (H1 : (List.length [[tok "B-LOC" 0; tok "I-LOC" 4; tok "O" 9]]
                <= List.length [["New"; "York"; "is"]])%nat) by (simpl; lia).
  assert (H2 : Forall sorted_by_start [[tok "B-LOC" 0; tok "I-LOC" 4; tok "O" 9]])
    by prove_sorted.
  assert (H3 : Forall (row_covered " ")
                 (combine [[tok "B-LOC" 0; tok "I-LOC" 4; tok "O" 9]]
                    [["New"; "York"; "is"]]))
    by prove_rows_covered.
  split; [now repeat split|]. split; [reflexivity|].
  exact (predictions_processor_emits_rule _ _ _ H1 H2 H3).
Defined.

(** C2, the claim as stated fails: a prediction list that is not sorted by
    start is accepted and labelled without any error.  Here the prediction
    that starts at 0 is never reached, so ["New"] is labelled ["O"]; the same
    predictions in ascending order label it ["B-LOC"]. *)
Lemma predictions_processor_unsorted_accepted :
  ~ sorted_by_start [tok "I-LOC" 4; tok "B-LOC" 0]
  /\ predictions_processor [[tok "I-LOC" 4; tok "B-LOC" 0]] [["New"; "York"]] " "
     = Ok [["O"; "I-LOC"]]
  /\ predictions_processor [[tok "B-LOC" 0; tok "I-LOC" 4]] [["New"; "York"]] " "
     = Ok [["B-LOC"; "I-LOC"]].
Proof.
  split; [|split; reflexivity].
  intros H. apply StronglySorted_inv in H. destruct H as [_ H].
  inversion H as [|? ? Hle _]; subst. unfold start_le in Hle. simpl in Hle. lia.
Qed.

(** C2, amended: [predictions_processor] raises the built-in [IndexError] of
    the list subscript, which names no example, exactly when there are fewer
    word lists than prediction lists or the cursor of some example runs past
    the end of its prediction list (a word of the example starts after every
    prediction of the example).  The order of the predictions is not checked:
    when there is a word list for each prediction list and no cursor overruns,
    the call returns the labels of the cursor rule applied to each prediction
    list in the order given, sorted or not. *)
Theorem predictions_processor_index_error (predictions : list (list Prediction.t))
  (words : list (list string)) (join_by : string) :
  (predictions_processor predictions words join_by = Raise IndexError
   <-> ((List.length words < List.length predictions)%nat
        \/ Exists (row_overruns join_by) (combine predictions words)))
  /\ ((List.length predictions <= List.length words)%nat ->
      Forall (row_covered join_by) (combine predictions words) ->
      exists preds,
        predictions_processor predictions words join_by = Ok preds
        /\ Forall2 (row_emits join_by) preds (combine predictions words)).
Proof.
  rewrite predictions_processor_spec. split.
  - apply align_rows_raise_iff.
  - intros Hlen Hcov.
    destruct (align_rows_covered join_by predictions words Hlen Hcov) as (preds & H).
    exists preds. split; [exact H|]. now apply align_rows_ok_iff in H.
Qed.

(** An overrun in the second example and an unsorted list that is covered. *)
Lemma predictions_processor_index_error_witness :
  predictions_processor [[tok "O" 0]; [tok "B-LOC" 0]] [["is"]; ["New"; "York"]] " "
  = Raise IndexError
  /\ exists preds,
      predictions_processor [[tok "I-LOC" 4; tok "B-LOC" 0]] [["New"; "York"]] " "
      = Ok preds
      /\ Forall2 (row_emits " ") preds
           (combine [[tok "I-LOC" 4; tok "B-LOC" 0]] [["New"; "York"]]).
Proof.
  split.
  - apply (proj1 (predictions_processor_index_error _ _ _)).
    right. apply Exists_cons_tl, Exists_cons_hd.
    unfold row_overruns, overruns. cbn [fst snd].
    apply Exists_cons_tl, Exists_cons_hd.
    prove_forall ltac:(simpl; lia).
  - apply (proj2 (predictions_processor_index_error _ _ _)).
    + simpl. lia.
    + prove_rows_covered.
Defined.

(** C4, the claim as stated fails: a number of predictions that differs from
    the number of words is no error.  One prediction, at offset 100, for three
    words returns three labels, all the filler ["O"]; four predictions for one
    word return one label and the three others are dropped. *)
Lemma predictions_processor_mismatch_accepted :
  List.length [tok "B-LOC" 100] <> List.length ["New"; "York"; "is"]
  /\ predictions_processor [[tok "B-LOC" 100]] [["New"; "York"; "is"]] " "
     = Ok [["O"; "O"; "O"]]
  /\ List.length [tok "B-LOC" 0; tok "I-LOC" 1; tok "I-PER" 2; tok "B-PER" 3]
     <> List.length ["York"]
  /\ predictions_processor
       [[tok "B-LOC" 0; tok "I-LOC" 1; tok "I-PER" 2; tok "B-PER" 3]] [["York"]] " "
     = Ok [["B-LOC"]].
Proof.
  split; [simpl; lia|]. split; [reflexivity|].
  split; [simpl; lia | reflexivity].
Qed.

(** C4, amended: whenever [predictions_processor] returns, it returns one
    label list per prediction list, and the label list of every example is
    exactly as long as that example's word list, whatever the number of
    predictions.  The length comes from the rule of the cursor and not from an
    error on a differing number of predictions: every word gets one label, the
    entity of the first prediction that does not start before it when that
    prediction starts at the word and the filler ["O"] when it starts after
    it, and the predictions that are passed over are dropped; so the call
    returns whenever there is a word list for each prediction list and every
    word has a prediction that does not start before it.  The call raises, with
    the built-in [IndexError], exactly when a word list is missing or the
    cursor of some example runs past the end of its prediction list; and it
    always ends. *)
Theorem predictions_processor_length (predictions : list (list Prediction.t))
  (words : list (list string)) (join_by : string) :
  predictions_processor predictions words join_by <> Diverge
  /\ (forall preds,
         predictions_processor predictions words join_by = Ok preds ->
         List.length preds = List.length predictions
         /\ Forall2 (fun labels ws => List.length labels = List.length ws)
              preds (firstn (List.length predictions) words)
         /\ Forall2 (row_emits join_by) preds (combine predictions words))
  /\ ((List.length predictions <= List.length words)%nat ->
      Forall (row_covered join_by) (combine predictions words) ->
      exists preds, predictions_processor predictions words join_by = Ok preds)
  /\ (predictions_processor predictions words join_by = Raise IndexError
      <-> ((List.length words < List.length predictions)%nat
           \/ Exists (row_overruns join_by) (combine predictions words)))
  /\ (forall e,
         predictions_processor predictions words join_by = Raise e ->
         e = IndexError).
Proof.
  rewrite predictions_processor_spec. split; [|split; [|split; [|split]]].
  - destruct (align_rows_cases join_by predictions words) as [(preds & ->)| ->];
      discriminate.
  - intros preds H. destruct (align_rows_lengths _ _ _ _ H) as [Hlen Hrows].
    split; [exact Hlen|]. split; [exact Hrows|].
    now apply align_rows_ok_iff in H.
  - apply align_rows_covered.
  - apply align_rows_raise_iff.
  - intros e H.
    destruct (align_rows_cases join_by predictions words) as [(preds & Hok)|Hraise];
      congruence.
Qed.

(** Three words and a single prediction that starts after all of them: the
    call returns, and the three labels are the filler of the rule. *)
Lemma predictions_processor_length_witness :
  predictions_processor [[tok "B-LOC" 100]] [["New"; "York"; "is"]] " "
  = Ok [["O"; "O"; "O"]]
  /\ List.length [["O"; "O"; "O"]] = List.length [[tok "B-LOC" 100]]
  /\ Forall2 (fun labels ws => List.length labels = List.length ws)
       [["O"; "O"; "O"]] (firstn 1 [["New"; "York"; "is"]])
  /\ Forall2 (row_emits " ") [["O"; "O"; "O"]]
       (combine [[tok "B-LOC" 100]] [["New"; "York"; "is"]]).
Proof.
  split; [reflexivity|].
  exact (proj1 (proj2 (predictions_processor_length
                         [[tok "B-LOC" 100]] [["New"; "York"; "is"]] " "))
           [["O"; "O"; "O"]] eq_refl).
Defined.

(** C9: two calls whose predictions agree, example by example and position by
    position, on ["start"] and ["entity"], whose words agree on their lengths
    and whose separators have the same length, have the same outcome: the same
    label lists or the same exception. *)
Theorem predictions_processor_reads_only
  (predictions1 predictions2 : list (list Prediction.t))
  (words1 words2 : list (list string)) (join_by1 join_by2 : string) :
  Forall2 (Forall2 same_start_entity) predictions1 predictions2 ->
  Forall2 (Forall2 same_len) words1 words2 ->
  len join_by1 = len join_by2 ->
  predictions_processor predictions1 words1 join_by1
  = predictions_processor predictions2 words2 join_by2.
Proof.
  intros Hp Hw Hsep. rewrite !predictions_processor_spec.
  now apply align_rows_same.
Qed.

(** Other characters, separator, scores, indices, words and ends. *)
Lemma predictions_processor_reads_only_witness :
  let predictions1 :=
    [[Prediction.mk "B-LOC" 1 1 "new" 0 3; Prediction.mk "I-LOC" 1 2 "york" 4 8]] in
  let predictions2 :=
    [[Prediction.mk "B-LOC" 0 7 "abc" 0 1; Prediction.mk "I-LOC" 0 9 "defg" 4 5]] in
  (Forall2 (Forall2 same_start_entity) predictions1 predictions2
   /\ Forall2 (Forall2 same_len) [["New"; "York"]] [["abc"; "defg"]]
   /\ len " " = len "_")
  /\ predictions_processor predictions1 [["New"; "York"]] " "
     = predictions_processor predictions2 [["abc"; "defg"]] "_".
Proof.
  cbv zeta.
  assert (H1 : Forall2 (Forall2 same_start_entity)
                 [[Prediction.mk "B-LOC" 1 1 "new" 0 3;
                   Prediction.mk "I-LOC" 1 2 "york" 4 8]]
                 [[Prediction.mk "B-LOC" 0 7 "abc" 0 1;
                   Prediction.mk "I-LOC" 0 9 "defg" 4 5]]).
  { repeat constructor. }
  assert (H2 : Forall2 (Forall2 same_len) [["New"; "York"]] [["abc"; "defg"]]).
  { repeat constructor. }
  assert (H3 : len " " = len "_") by reflexivity.
  split; [now repeat split|].
  exact (predictions_processor_reads_only _ _ _ _ _ _ H1 H2 H3).
Defined.

(** C10: for an example whose word list is empty the loop over the words
    returns the empty label list whatever the prediction list, the empty one
    included; the outcome of the whole call is the same with any other
    prediction list in that example's place; and when the call returns, the
    label list of that example is empty. *)
Theorem predictions_processor_no_words (pre : list (list Prediction.t))
  (prediction : list Prediction.t) (post : list (list Prediction.t))
  (words : list (list string)) (join_by : string) :
  nth_error words (List.length pre) = Some [] ->
  words_loop prediction (words_to_offsets [] join_by) 0 [] = Ok []
  /\ words_loop [] (words_to_offsets [] join_by) 0 [] = Ok []
  /\ (forall prediction',
         predictions_processor (pre ++ prediction' :: post) words join_by
         = predictions_processor (pre ++ prediction :: post) words join_by)
  /\ (forall preds,
         predictions_processor (pre ++ prediction :: post) words join_by = Ok preds ->
         nth_error preds (List.length pre) = Some []).
Proof.
  intros Hw. split; [reflexivity|]. split; [reflexivity|].
  destruct (align_rows_no_words join_by pre prediction post words Hw) as [Hsame Hnth].
  split.
  - intros prediction'. rewrite !predictions_processor_spec. apply Hsame.
  - intros preds. rewrite predictions_processor_spec. apply Hnth.
Qed.

(** An example with neither words nor predictions between two others. *)
Lemma predictions_processor_no_words_witness :
  nth_error [["New"]; []; ["is"]] (List.length [[tok "B-LOC" 0]]) = Some []
  /\ predictions_processor ([[tok "B-LOC" 0]] ++ [] :: [[tok "O" 0]])
       [["New"]; []; ["is"]] " "
     = Ok [["B-LOC"]; []; ["O"]]
  /\ forall prediction',
      predictions_processor ([[tok "B-LOC" 0]] ++ prediction' :: [[tok "O" 0]])
        [["New"]; []; ["is"]] " "
      = predictions_processor ([[tok "B-LOC" 0]] ++ [] :: [[tok "O" 0]])
          [["New"]; []; ["is"]] " ".
Proof.
  split; [reflexivity|]. split; [reflexivity|].
  exact (proj1 (proj2 (proj2 (predictions_processor_no_words
                                [[tok "B-LOC" 0]] [] [[tok "O" 0]]
                                [["New"]; []; ["is"]] " " eq_refl)))).
Defined.

(** * The cache of [compute] *)

(** C7, the claim as stated fails: a second call with caching enabled returns
    the result of the first from the cache file, but it calls the pipeline
    again, on the input of the check of [prepare_pipeline] and on the inputs
    of the canary dataset. *)
Lemma compute_again_calls_pipeline :
  let run := compute (base := example_base) tt example_data None tt simple
               "tokens" "ner_tags" " " true in
  exists result w1 w2,
    run fresh_world = (Ok result, w1)
    /\ run w1 = (Ok result, w2)
    /\ calls w2 = calls w1 ++ [["2003 New York Gregory"]; ["Felix sings"]]
    /\ calls w2 <> calls w1.
Proof.
  cbv zeta. eexists _, _, _.
  split; [vm_compute; reflexivity|].
  split; [vm_compute; reflexivity|].
  split; [reflexivity|]. simpl. discriminate.
Qed.

(** C7, amended: with caching enabled, a second [compute] call with the same
    arguments, made in the world that a first call that returned has left,
    returns the very result of the first call, read from the cache file, and
    leaves the cache files as they are.  It does not pass the inputs of the
    dataset to the pipeline; it calls the pipeline twice, once on the input of
    the check of [prepare_pipeline] and once on the inputs of the canary
    dataset, for the hash in the name of the cache file. *)
Theorem compute_again_reads_cache {M Metric V : Type} {base : EvaluatorBase M Metric V}
  (model : M) (data : Dataset) (split : option string) (metric : Metric)
  (resampling : Resampling) (input_column label_column join_by : string)
  (w0 w1 : World V) (result : Result V) :
  compute model data split metric resampling input_column label_column join_by true w0
  = (Ok result, w1) ->
  exists w2 references canary_inputs,
    compute model data split metric resampling input_column label_column join_by
      true w1
    = (Ok result, w2)
    /\ files w2 = files w1
    /\ prepare_data (canary_dataset task input_column label_column)
         input_column label_column join_by
       = Ok (references, canary_inputs)
    /\ calls w2 = calls w1 ++ [dummy_input; canary_inputs].
Proof.
  intros H. unfold compute in H |- *.
  apply pbind_ok in H. destruct H as (data' & wa & Ha & H).
  apply lift_ok in Ha. destruct Ha as [Hdata ->].
  apply pbind_ok in H. destruct H as ([references pipe_inputs] & wb & Hb & H).
  apply lift_ok in Hb. destruct Hb as [Hprep ->].
  apply pbind_ok in H. destruct H as (pipe & wc & Hpipe & H).
  apply pbind_ok in H. destruct H as (metric' & wd & Hd & H).
  apply lift_ok in Hd. destruct Hd as [Hmetric ->].
  cbv zeta in H.
  apply pbind_ok in H. destruct H as (canary_hash & we & Hhash & H).
  apply pbind_ok in H. destruct H as (cached & wf & Hexists & H).
  unfold path_exists in Hexists. injection Hexists as Hcached <-.
  destruct (compute_canary_hash_ok _ _ _ _ _ _ _ Hhash)
    as (canary_references & canary_inputs & Hcanary & Hne & Hagain).
  destruct (Hagain (record_call dummy_input w1)) as (v' & Hv & Hfiles & Hcalls).
  assert (Hfile : dict_get (files v') (cache_file canary_hash data' metric')
                  = Ok (match dict_get (files we) (cache_file canary_hash data' metric')
                        with Ok table => table | _ => table_of result end)
                  /\ first_row (match dict_get (files we)
                                        (cache_file canary_hash data' metric')
                                with Ok table => table | _ => table_of result end)
                     = Ok result).
  { rewrite Hfiles. simpl.
    destruct (dict_get (files we) (cache_file canary_hash data' metric'))
      as [table|e|] eqn:Ef.
    - injection Hcached as <-.
      apply pbind_ok in H. destruct H as (table' & wg & Hread & H).
      unfold read_table in Hread. rewrite Ef in Hread. injection Hread as <- <-.
      apply lift_ok in H. destruct H as [Hrow ->]. now split.
    - injection Hcached as <-.
      split; [|apply first_row_table_of].
      eapply compute_predictions_cached; [exact Hne | exact H].
    - injection Hcached as <-.
      split; [|apply first_row_table_of].
      eapply compute_predictions_cached; [exact Hne | exact H]. }
  destruct Hfile as [Hget Hrow].
  exists v', canary_references, canary_inputs.
  split; [|split; [|split]].
  - rewrite (pbind_run _ _ w1 w1 data') by now apply lift_run.
    rewrite (pbind_run _ _ w1 w1 (references, pipe_inputs)) by now apply lift_run.
    rewrite (pbind_run _ _ w1 (record_call dummy_input w1) pipe)
      by (eapply prepare_pipeline_ok, Hpipe).
    rewrite (pbind_run _ _ _ (record_call dummy_input w1) metric')
      by now apply lift_run.
    cbv zeta.
    rewrite (pbind_run _ _ _ v' canary_hash Hv).
    rewrite (pbind_run _ _ v' v' true)
      by (unfold path_exists; now rewrite Hget).
    rewrite (pbind_run _ _ v' v' _)
      by (unfold read_table; rewrite Hget; reflexivity).
    now apply lift_run.
  - rewrite Hfiles. reflexivity.
  - exact Hcanary.
  - rewrite Hcalls. simpl. now rewrite <- app_assoc.
Qed.

(** The instance: a first call in a world without cache file, then a second. *)
Lemma compute_again_reads_cache_witness :
  let run := compute (base := example_base) tt example_data None tt simple
               "tokens" "ner_tags" " " true in
  run fresh_world = (Ok [("examples", 1); ("total_time_in_seconds", 4)],
                     snd (run fresh_world))
  /\ exists w2 references canary_inputs,
      run (snd (run fresh_world))
      = (Ok [("examples", 1); ("total_time_in_seconds", 4)], w2)
      /\ files w2 = files (snd (run fresh_world))
      /\ prepare_data (base := example_base) canary_example "tokens" "ner_tags" " "
         = Ok (references, canary_inputs)
      /\ calls w2 = calls (snd (run fresh_world)) ++ [dummy_input; canary_inputs].
Proof.
  cbv zeta.
  assert (H : compute (base := example_base) tt example_data None tt simple
                "tokens" "ner_tags" " " true fresh_world
              = (Ok [("examples", 1); ("total_time_in_seconds", 4)],
                 snd (compute (base := example_base) tt example_data None tt simple
                        "tokens" "ner_tags" " " true fresh_world)))
    by (vm_compute; reflexivity).
  split; [exact H|].
  exact (compute_again_reads_cache tt example_data None tt simple
           "tokens" "ner_tags" " " fresh_world _ _ H).
Defined.

(** * Data preparation *)

(** C8, the code at a failing input: a label column of an unsigned integer
    type without [ClassLabel] names is not rejected, and its integer labels are
    returned as the references; with a signed integer type the same labels
    raise [NotImplementedError], and [ClassLabel] ids are resolved to names. *)
Theorem prepare_data_unsigned_labels :
  prepare_data (base := example_base) unsigned_data "tokens" "ner_tags" " "
  = Ok ([VList [VInt 1; VInt 2]], ["New York"])
  /\ prepare_data (base := example_base) signed_data "tokens" "ner_tags" " "
     = Raise NotImplementedError
  /\ prepare_data (base := example_base) example_data "tokens" "ner_tags" " "
     = Ok ([VList [VStr "B-LOC"]], ["New"]).
Proof. repeat split. Qed.

(** * Further properties of the offset reconstructor *)

(** X1: the spans returned by [words_to_offsets] tile the joined text: no start
    is negative and no end is below its start minus one, the first span starts
    at 0, each next span starts [len(join_by)] characters after the end of the
    one before, and the last span ends at the last character of
    [join_by.join(words)]. *)
Theorem words_to_offsets_tiles_text (words : list string) (join_by : string) :
  let offsets := words_to_offsets words join_by in
  Forall (fun off => 0 <= fst off /\ fst off - 1 <= snd off) offsets
  /\ (forall a, nth_error offsets 0 = Some a -> fst a = 0)
  /\ (forall k a b,
         nth_error offsets k = Some a ->
         nth_error offsets (S k) = Some b ->
         fst b = snd a + len join_by + 1)
  /\ (forall a,
         nth_error offsets (List.length words - 1) = Some a ->
         snd a + 1 = len (join join_by words)).
Proof.
  cbv zeta. rewrite words_to_offsets_spans. split; [|split; [|split]].
  - apply spans_from_bounds.
  - destruct words as [|w ws]; simpl; [discriminate|].
    intros a H. now injection H as <-.
  - apply spans_from_next.
  - destruct words as [|w ws] using rev_ind; [discriminate|].
    clear IHws. rewrite length_app, spans_from_app. simpl List.length.
    replace (List.length ws + 1 - 1)%nat with (List.length ws) by lia.
    rewrite nth_error_app2; rewrite spans_from_length; [|lia].
    rewrite Nat.sub_diag. simpl. intros a H. injection H as <-. simpl.
    rewrite cursor_after_text, text_before_snoc, len_append. lia.
Qed.

(** X2: the offsets of a concatenation of two word lists are the offsets of
    the first list followed by the offsets of the second, each moved by the
    length of the text the first list puts before them: nothing for an empty
    first list, else the joined first list and one separator. *)
Theorem words_to_offsets_app (words1 words2 : list string) (join_by : string) :
  words_to_offsets (words1 ++ words2) join_by
  = words_to_offsets words1 join_by
      ++ map (shift (len (text_before join_by words1)))
           (words_to_offsets words2 join_by).
Proof.
  rewrite !words_to_offsets_spans, spans_from_app, cursor_after_text.
  now rewrite <- spans_from_shift.
Qed.

(** * Further properties of the label aligner *)

(** X3: when the predictions of every example are the tokens of its words in
    turn -- for each word a first token that starts at the word's start and
    then tokens that start no later than the word's last character -- and the
    separator is not empty or no word but the last is empty, every word gets
    the entity of its first token and the other tokens are discarded. *)
Theorem predictions_processor_first_tokens (groups : list (list (list Prediction.t)))
  (words : list (list string)) (join_by : string) :
  Forall2 (fun ws tokens =>
             (join_by <> "" \/ Forall (fun w => w <> "") (removelast ws))
             /\ Forall2 word_tokens (words_to_offsets ws join_by) tokens)
    words groups ->
  predictions_processor (map (@List.concat _) groups) words join_by
  = Ok (map (fun tokens => map Prediction.entity (flat_map (firstn 1) tokens)) groups).
Proof.
  intros H. rewrite predictions_processor_spec.
  induction H as [|ws tokens wss gss [Hmove Htok] _ IH]; [reflexivity|].
  simpl. rewrite IH.
  rewrite <- (app_nil_l (List.concat tokens)), (labels_of_groups _ _ Htok);
    [reflexivity | | |].
  - rewrite words_to_offsets_spans. now apply spans_from_starts_lt.
  - rewrite words_to_offsets_spans. apply spans_from_ends_before.
  - intros off _. constructor.
Qed.

(** ["York"] split in two tokens, of which the second is dropped. *)
Lemma predictions_processor_first_tokens_witness :
  let groups := [[[tok "B-LOC" 0]; [tok "I-LOC" 4; tok "X" 6]]] in
  Forall2 (fun ws tokens =>
             (" " <> "" \/ Forall (fun w => w <> "") (removelast ws))
             /\ Forall2 word_tokens (words_to_offsets ws " ") tokens)
    [["New"; "York"]] groups
  /\ predictions_processor (map (@List.concat _) groups) [["New"; "York"]] " "
     = Ok [["B-LOC"; "I-LOC"]].
Proof.
  cbv zeta.
  assert (H : Forall2 (fun ws tokens =>
                         (" " <> "" \/ Forall (fun w => w <> "") (removelast ws))
                         /\ Forall2 word_tokens (words_to_offsets ws " ") tokens)
                [["New"; "York"]] [[[tok "B-LOC" 0]; [tok "I-LOC" 4; tok "X" 6]]]).
  { constructor; [|constructor]. split; [left; discriminate|].
    change (words_to_offsets ["New"; "York"] " ") with [(0, 2); (4, 7)].
    constructor; [|constructor; [|constructor]].
    - exists (tok "B-LOC" 0), []. repeat split. constructor.
    - exists (tok "I-LOC" 4), [tok "X" 6]. repeat split.
      constructor; [simpl; lia | constructor]. }
  split; [exact H|].
  exact (predictions_processor_first_tokens _ _ _ H).
Defined.

(** X4: the examples are aligned independently of each other: the outcome on
    a batch made of two batches, the first with as many word lists as
    prediction lists, is the outcome on the first followed by the outcome on
    the second -- the label lists of both, or the first exception met. *)
Theorem predictions_processor_app (predictions1 predictions2 : list (list Prediction.t))
  (words1 words2 : list (list string)) (join_by : string) :
  List.length predictions1 = List.length words1 ->
  predictions_processor (predictions1 ++ predictions2) (words1 ++ words2) join_by
  = (preds1 <- predictions_processor predictions1 words1 join_by ;;
     preds2 <- predictions_processor predictions2 words2 join_by ;;
     Ok (preds1 ++ preds2)).
Proof.
  intros Hlen. rewrite !predictions_processor_spec. now apply align_rows_app.
Qed.

Lemma predictions_processor_app_witness :
  List.length [[tok "B-LOC" 0]] = List.length [["New"]]
  /\ predictions_processor ([[tok "B-LOC" 0]] ++ [[tok "O" 0; tok "O" 3]])
       ([["New"]] ++ [["is"; "a"]]) " "
     = (preds1 <- predictions_processor [[tok "B-LOC" 0]] [["New"]] " " ;;
        preds2 <- predictions_processor [[tok "O" 0; tok "O" 3]] [["is"; "a"]] " " ;;
        Ok (preds1 ++ preds2)).
Proof.
  split; [reflexivity|].
  exact (predictions_processor_app [[tok "B-LOC" 0]] [[tok "O" 0; tok "O" 3]]
           [["New"]] [["is"; "a"]] " " eq_refl).
Defined.

(** X5: the loop runs over the prediction lists, so word lists beyond the
    number of prediction lists are never read: they change nothing, and no
    label list is returned for them. *)
Theorem predictions_processor_more_words (predictions : list (list Prediction.t))
  (words more : list (list string)) (join_by : string) :
  (List.length predictions <= List.length words)%nat ->
  predictions_processor predictions (words ++ more) join_by
  = predictions_processor predictions words join_by.
Proof.
  intros Hlen. rewrite !predictions_processor_spec. now apply align_rows_more_words.
Qed.

Lemma predictions_processor_more_words_witness :
  (List.length [[tok "B-LOC" 0]] <= List.length [["New"]])%nat
  /\ predictions_processor [[tok "B-LOC" 0]] ([["New"]] ++ [["York"; "is"]]) " "
     = predictions_processor [[tok "B-LOC" 0]] [["New"]] " ".
Proof.
  split; [simpl; lia|].
  apply (predictions_processor_more_words [[tok "B-LOC" 0]] [["New"]]
           [["York"; "is"]] " ").
  simpl. lia.
Defined.

(** X6: when the first prediction of every example starts after every word of
    the example, the cursor never moves and every word of the batch is
    labelled ["O"], whatever the entities predicted. *)
Theorem predictions_processor_all_outside (predictions : list (list Prediction.t))
  (words : list (list string)) (join_by : string) :
  Forall2 (fun prediction ws => starts_late prediction ws join_by) predictions words ->
  predictions_processor predictions words join_by
  = Ok (map (fun ws => repeat "O" (List.length ws)) words).
Proof.
  intros H. rewrite predictions_processor_spec.
  induction H as [|prediction ws ps wss (p & rest & -> & Hlate) _ IH];
    [reflexivity|].
  simpl. rewrite (labels_of_late _ _ _ Hlate), IH. simpl.
  now rewrite words_to_offsets_length.
Qed.

(** Offsets counted from 1 instead of 0. *)
Lemma predictions_processor_all_outside_witness :
  Forall2 (fun prediction ws => starts_late prediction ws " ")
    [[tok "B-LOC" 10; tok "I-LOC" 1]] [["New"; "York"]]
  /\ predictions_processor [[tok "B-LOC" 10; tok "I-LOC" 1]] [["New"; "York"]] " "
     = Ok [["O"; "O"]].
Proof.
  assert (H : Forall2 (fun prediction ws => starts_late prediction ws " ")
                [[tok "B-LOC" 10; tok "I-LOC" 1]] [["New"; "York"]]).
  { constructor; [|constructor].
    exists (tok "B-LOC" 10), [tok "I-LOC" 1]. split; [reflexivity|].
    change (words_to_offsets ["New"; "York"] " ") with [(0, 2); (4, 7)].
    prove_forall ltac:(simpl; lia). }
  split; [exact H|].
  exact (predictions_processor_all_outside _ _ _ H).
Defined.

(** * Further properties of [prepare_data] *)

(** X7: for a dataset that the base class accepts and that has a feature for
    both columns, [prepare_data] raises [ValueError] exactly when the feature
    of the input column or that of the label column is not a [Sequence];
    nothing later in the method raises it. *)
Theorem prepare_data_value_error {M Metric V : Type} {base : EvaluatorBase M Metric V}
  (data : Dataset) (input_column label_column join_by : string)
  (input_feature label_feature : Feature) :
  super_prepare_data data input_column label_column = Ok tt ->
  dict_get (features data) input_column = Ok input_feature ->
  dict_get (features data) label_column = Ok label_feature ->
  prepare_data data input_column label_column join_by = Raise ValueError
  <-> ~ ((exists f, input_feature = Sequence f) /\ (exists f, label_feature = Sequence f)).
Proof. apply prepare_data_value_error_iff. Qed.

(** The format that the class documentation gives as not accepted. *)
Lemma prepare_data_value_error_witness :
  prepare_data (base := example_base) flat_data "tokens" "ner_tags" " "
  = Raise ValueError.
Proof.
  apply (proj2 (prepare_data_value_error (base := example_base) flat_data
                  "tokens" "ner_tags" " " (Value "string") (Sequence (Value "string"))
                  eq_refl eq_refl eq_refl)).
  intros [[f Hf] _]. discriminate.
Defined.

(** X8: when both columns are [Sequence]s, [prepare_data] raises
    [NotImplementedError] exactly when the labels are not [ClassLabel]s and the
    name of their [dtype] starts with ["int"]; in that case neither the labels
    nor the words are read. *)
Theorem prepare_data_not_implemented {M Metric V : Type}
  {base : EvaluatorBase M Metric V}
  (data : Dataset) (input_column label_column join_by : string)
  (input_feature feature : Feature) :
  super_prepare_data data input_column label_column = Ok tt ->
  dict_get (features data) input_column = Ok (Sequence input_feature) ->
  dict_get (features data) label_column = Ok (Sequence feature) ->
  prepare_data data input_column label_column join_by = Raise NotImplementedError
  <-> ((forall names, feature <> ClassLabel names)
       /\ String.prefix "int" (dtype feature) = true).
Proof.
  intros Hsuper Hi Hl. unfold prepare_data. rewrite Hsuper, Hi. cbn [bind].
  rewrite Hl. cbn [bind]. split.
  - destruct (references_of data label_column feature) as [refs|e|] eqn:Er;
      cbn [bind].
    + destruct (dict_get (columns data) input_column) as [rows|e|] eqn:Ec;
        cbn [bind].
      * destruct (map_outcome (fun x => ws <- as_words x ;; Ok (join join_by ws)) rows)
          as [inputs|e|] eqn:Em; cbn [bind]; try discriminate.
        intros H. injection H as ->. apply map_outcome_raise in Em.
        destruct Em as (x & _ & Hx).
        destruct (as_words x) as [ws|e|] eqn:Ew; simpl in Hx; try discriminate.
        injection Hx as ->. apply as_words_raise in Ew. discriminate.
      * intros H. injection H as ->. apply dict_get_raise in Ec. discriminate.
      * discriminate.
    + intros H. injection H as ->. apply references_of_raise in Er.
      destruct Er as [Hr|[Hr|[_ Hr]]]; [discriminate | discriminate | exact Hr].
    + discriminate.
  - intros [Hno Hp]. destruct feature as [d|names|f]; simpl in *.
    + now rewrite Hp.
    + now contradiction (Hno names).
    + discriminate.
Qed.

(** Labels of a signed integer type without names. *)
Lemma prepare_data_not_implemented_witness :
  prepare_data (base := example_base) signed_data "tokens" "ner_tags" " "
  = Raise NotImplementedError.
Proof.
  apply (proj2 (prepare_data_not_implemented (base := example_base) signed_data
                  "tokens" "ner_tags" " " (Value "string") (Value "int32")
                  eq_refl eq_refl eq_refl)).
  split; [discriminate | reflexivity].
Defined.

(** X9: when the labels are [ClassLabel]s and [prepare_data] returns, the
    references have one row per row of the label column, and each row holds,
    in order, the name that [ClassLabel.names] gives to each id of the row:
    every id is an integer from 0 to [len(names) - 1]. *)
Theorem prepare_data_class_labels {M Metric V : Type} {base : EvaluatorBase M Metric V}
  (data : Dataset) (input_column label_column join_by : string)
  (names : list string) (references : list value) (pipeline_inputs : list string) :
  dict_get (features data) label_column = Ok (Sequence (ClassLabel names)) ->
  prepare_data data input_column label_column join_by
  = Ok (references, pipeline_inputs) ->
  exists column,
    dict_get (columns data) label_column = Ok column
    /\ Forall2 (fun label_ids reference =>
                  exists ids labels,
                    iterate label_ids = Ok ids
                    /\ Forall2 (names_id names) ids labels
                    /\ reference = VList (map VStr labels))
         column references.
Proof.
  intros Hl H. apply prepare_data_ok_inv in H.
  destruct H as (fi & feature & rows & _ & Hl' & Href & _).
  rewrite Hl in Hl'. injection Hl' as <-.
  rewrite references_of_class_label in Href.
  destruct (dict_get (columns data) label_column) as [column|e|]; try discriminate.
  exists column. split; [reflexivity|]. simpl in Href.
  apply map_outcome_ok in Href. eapply Forall2_impl; [|exact Href].
  intros label_ids reference Hrow. unfold row_labels in Hrow.
  destruct (iterate label_ids) as [ids|e|]; try discriminate. simpl in Hrow.
  destruct (map_outcome (id_to_label names) ids) as [labels|e|] eqn:El;
    try discriminate.
  simpl in Hrow. injection Hrow as <-. exists ids, labels.
  split; [reflexivity|]. split; [|reflexivity].
  apply map_outcome_ok in El. eapply Forall2_impl; [|exact El].
  intros id label. apply id_to_label_ok.
Qed.

(** The dataset of the class documentation, with one example. *)
Lemma prepare_data_class_labels_witness :
  prepare_data (base := example_base) example_data "tokens" "ner_tags" " "
  = Ok ([VList [VStr "B-LOC"]], ["New"])
  /\ exists column,
      dict_get (columns example_data) "ner_tags" = Ok column
      /\ Forall2 (fun label_ids reference =>
                    exists ids labels,
                      iterate label_ids = Ok ids
                      /\ Forall2 (names_id ["O"; "B-LOC"; "I-LOC"]) ids labels
                      /\ reference = VList (map VStr labels))
           column [VList [VStr "B-LOC"]].
Proof.
  split; [reflexivity|].
  exact (prepare_data_class_labels (base := example_base) example_data
           "tokens" "ner_tags" " " ["O"; "B-LOC"; "I-LOC"] _ _ eq_refl eq_refl).
Defined.

(** X10: when the labels are [ClassLabel]s, the rows of the label column are
    lists of integers and one of the integers is negative or not below
    [len(names)], [prepare_data] raises [KeyError]: the ids are looked up in a
    dict, so [-1] is not the last name. *)
Theorem prepare_data_id_outside {M Metric V : Type} {base : EvaluatorBase M Metric V}
  (data : Dataset) (input_column label_column join_by : string)
  (input_feature : Feature) (names : list string) (column : list value) :
  super_prepare_data data input_column label_column = Ok tt ->
  dict_get (features data) input_column = Ok (Sequence input_feature) ->
  dict_get (features data) label_column = Ok (Sequence (ClassLabel names)) ->
  dict_get (columns data) label_column = Ok column ->
  Forall (fun row => exists zs, row = ids_row zs) column ->
  Exists (fun row =>
            exists zs,
              row = ids_row zs
              /\ Exists (fun z => z < 0 \/ Z.of_nat (List.length names) <= z) zs)
    column ->
  prepare_data data input_column label_column join_by = Raise KeyError.
Proof.
  intros Hsuper Hi Hl Hc Hrows Hout. unfold prepare_data.
  rewrite Hsuper, Hi. cbn [bind]. rewrite Hl. cbn [bind].
  rewrite references_of_class_label, Hc. cbn [bind].
  rewrite (map_outcome_raises (row_labels names) column KeyError); [reflexivity | |].
  - eapply Forall_impl; [|exact Hrows]. intros row (zs & ->).
    apply row_labels_ids_cases.
  - eapply Exists_impl; [|exact Hout]. intros row (zs & -> & Hz).
    now apply row_labels_ids_outside.
Qed.

(** A row with the id [-1]. *)
Lemma prepare_data_id_outside_witness :
  prepare_data (base := example_base) missing_label_data "tokens" "ner_tags" " "
  = Raise KeyError.
Proof.
  apply (prepare_data_id_outside (base := example_base) missing_label_data
           "tokens" "ner_tags" " " (Value "string") ["O"; "B-LOC"; "I-LOC"]
           [ids_row [1; -1]] eq_refl eq_refl eq_refl eq_refl).
  - constructor; [now exists [1; -1] | constructor].
  - apply Exists_cons_hd. exists [1; -1]. split; [reflexivity|].
    apply Exists_cons_tl, Exists_cons_hd. left. lia.
Defined.

(** X11: when [prepare_data] returns, it returns one input per row of the
    input column, each the words of the row joined by [join_by], and the
    offsets that [words_to_offsets] gives for these words with the same
    [join_by] cut each word out of that input: the aligner and the pipeline
    read the same text. *)
Theorem prepare_data_inputs_sliced {M Metric V : Type} {base : EvaluatorBase M Metric V}
  (data : Dataset) (input_column label_column join_by : string)
  (references : list value) (pipeline_inputs : list string) :
  prepare_data data input_column label_column join_by
  = Ok (references, pipeline_inputs) ->
  exists rows,
    dict_get (columns data) input_column = Ok rows
    /\ Forall2 (fun row input =>
                  exists ws,
                    as_words row = Ok ws
                    /\ input = join join_by ws
                    /\ Forall2 (fun w off => slice input (fst off) (snd off + 1) = w)
                         ws (words_to_offsets ws join_by))
         rows pipeline_inputs.
Proof.
  intros H. apply prepare_data_ok_inv in H.
  destruct H as (fi & feature & rows & _ & _ & _ & Hrows & Hmap).
  exists rows. split; [exact Hrows|].
  apply map_outcome_ok in Hmap. eapply Forall2_impl; [|exact Hmap].
  intros row input Hrow. simpl in Hrow.
  destruct (as_words row) as [ws|e|]; try discriminate.
  simpl in Hrow. injection Hrow as <-. exists ws.
  split; [reflexivity|]. split; [reflexivity|]. apply words_to_offsets_slice.
Qed.

Lemma prepare_data_inputs_sliced_witness :
  prepare_data (base := example_base) unsigned_data "tokens" "ner_tags" " "
  = Ok ([VList [VInt 1; VInt 2]], ["New York"])
  /\ exists rows,
      dict_get (columns unsigned_data) "tokens" = Ok rows
      /\ Forall2 (fun row input =>
                    exists ws,
                      as_words row = Ok ws
                      /\ input = join " " ws
                      /\ Forall2 (fun w off => slice input (fst off) (snd off + 1) = w)
                           ws (words_to_offsets ws " "))
           rows ["New York"].
Proof.
  split; [reflexivity|].
  exact (prepare_data_inputs_sliced (base := example_base) unsigned_data
           "tokens" "ner_tags" " " _ _ eq_refl).
Defined.

(** * Further properties of [compute] *)

(** X12: with [cache_if_possible] unset, [compute] leaves every cache file as
    it is, whether it returns or raises, and neither its outcome nor its use
    of the clock depends on the cache files or on earlier calls: it never
    reads or writes the cache. *)
Theorem compute_uncached_no_files {M Metric V : Type} {base : EvaluatorBase M Metric V}
  (model : M) (data : Dataset) (split : option string) (metric : Metric)
  (resampling : Resampling) (input_column label_column join_by : string) :
  keeps_files
    (compute model data split metric resampling input_column label_column join_by
       false)
  /\ ignores_files
       (compute model data split metric resampling input_column label_column join_by
          false).
Proof.
  unfold compute. split.
  - apply keeps_pbind; [apply keeps_lift | intros data'].
    apply keeps_pbind; [apply keeps_lift | intros [references pipe_inputs]].
    apply keeps_pbind; [apply keeps_prepare_pipeline | intros pipe].
    apply keeps_pbind; [apply keeps_lift | intros metric'].
    apply keeps_compute_predictions.
  - apply ignores_pbind; [apply ignores_lift | intros data'].
    apply ignores_pbind; [apply ignores_lift | intros [references pipe_inputs]].
    apply ignores_pbind; [apply ignores_prepare_pipeline | intros pipe].
    apply ignores_pbind; [apply ignores_lift | intros metric'].
    apply ignores_compute_predictions.
Qed.

(** X13: a [compute] call without the cache that returns has called the
    pipeline exactly twice: first on the input of the check of
    [prepare_pipeline], then once on all the joined inputs that
    [prepare_data] returned for the loaded dataset. *)
Theorem compute_uncached_calls {M Metric V : Type} {base : EvaluatorBase M Metric V}
  (model : M) (data : Dataset) (split : option string) (metric : Metric)
  (resampling : Resampling) (input_column label_column join_by : string)
  (w w' : World V) (result : Result V) :
  compute model data split metric resampling input_column label_column join_by false w
  = (Ok result, w') ->
  exists data' references pipe_inputs,
    load_data data split = Ok data'
    /\ prepare_data data' input_column label_column join_by
       = Ok (references, pipe_inputs)
    /\ calls w' = calls w ++ [dummy_input; pipe_inputs].
Proof.
  intros H. apply compute_uncached_inv in H.
  destruct H as (data' & references & pipe_inputs & pipe & metric' & rows & words
                 & labels & metric_results & H1 & H2 & _ & _ & _ & _ & _ & _ & _ & H).
  now exists data', references, pipe_inputs.
Qed.

Lemma compute_uncached_calls_witness :
  let run := compute (base := example_base) tt example_data None tt simple
               "tokens" "ner_tags" " " false in
  run fresh_world = (Ok [("examples", 1); ("total_time_in_seconds", 1)],
                     snd (run fresh_world))
  /\ exists data' references pipe_inputs,
      load_data (EvaluatorBase := example_base) example_data None = Ok data'
      /\ prepare_data (base := example_base) data' "tokens" "ner_tags" " "
         = Ok (references, pipe_inputs)
      /\ calls (snd (run fresh_world))
         = calls fresh_world ++ [dummy_input; pipe_inputs].
Proof.
  cbv zeta.
  assert (H : compute (base := example_base) tt example_data None tt simple
                "tokens" "ner_tags" " " false fresh_world
              = (Ok [("examples", 1); ("total_time_in_seconds", 1)],
                 snd (compute (base := example_base) tt example_data None tt simple
                        "tokens" "ner_tags" " " false fresh_world)))
    by (vm_compute; reflexivity).
  split; [exact H|].
  exact (compute_uncached_calls tt example_data None tt simple
           "tokens" "ner_tags" " " fresh_world _ _ H).
Defined.

(** X14: a result that [compute] returns without the cache is the mapping
    that the metric gives for the references of [prepare_data] and the labels
    that [predictions_processor] makes of the pipeline's predictions for the
    joined inputs, updated with the performance counters of that pipeline
    call: when both mappings hold every key once, a name that is in both has
    the value of the counter, and any other name the value of the metric. *)
Theorem compute_uncached_result {M Metric V : Type} {base : EvaluatorBase M Metric V}
  (model : M) (data : Dataset) (split : option string) (metric : Metric)
  (resampling : Resampling) (input_column label_column join_by : string)
  (w w' : World V) (result : Result V) :
  compute model data split metric resampling input_column label_column join_by false w
  = (Ok result, w') ->
  exists data' references pipe_inputs pipe metric' rows words labels
         metric_results perf_results,
    load_data data split = Ok data'
    /\ prepare_data data' input_column label_column join_by
       = Ok (references, pipe_inputs)
    /\ super_prepare_pipeline model = Ok pipe
    /\ prepare_metric metric = Ok metric'
    /\ dict_get (columns data') input_column = Ok rows
    /\ map_outcome as_words rows = Ok words
    /\ predictions_processor (pipe pipe_inputs) words join_by = Ok labels
    /\ compute_metric metric' references labels resampling = Ok metric_results
    /\ perf_results
       = compute_time_perf (hd 0 (ticks w)) (hd 0 (tl (ticks w)))
           (List.length (pipe pipe_inputs))
    /\ (unique_keys metric_results ->
        unique_keys perf_results ->
        forall k,
          dict_get result k
          = match dict_get perf_results k with
            | Ok v => Ok v
            | _ => dict_get metric_results k
            end).
Proof.
  intros H. apply compute_uncached_inv in H.
  destruct H as (data' & references & pipe_inputs & pipe & metric' & rows & words
                 & labels & metric_results
                 & H1 & H2 & H3 & H4 & H5 & H6 & H7 & H8 & -> & _).
  exists data', references, pipe_inputs, pipe, metric', rows, words, labels,
    metric_results, (compute_time_perf (hd 0 (ticks w)) (hd 0 (tl (ticks w)))
                       (List.length (pipe pipe_inputs))).
  repeat (split; [assumption|]). split; [reflexivity|].
  intros Hm Hp k. rewrite (dict_get_update _ Hp), (dict_get_update _ Hm).
  destruct (dict_get_cases metric_results k) as [(v & ->)| ->]; reflexivity.
Qed.

Lemma compute_uncached_result_witness :
  let run := compute (base := example_base) tt example_data None tt simple
               "tokens" "ner_tags" " " false in
  run fresh_world = (Ok [("examples", 1); ("total_time_in_seconds", 1)],
                     snd (run fresh_world))
  /\ exists labels metric_results perf_results,
      predictions_processor (example_pipe ["New"]) [["New"]] " " = Ok labels
      /\ metric_results = [("examples", 1)]
      /\ perf_results = [("total_time_in_seconds", 1)]
      /\ forall k,
          dict_get [("examples", 1); ("total_time_in_seconds", 1)] k
          = match dict_get perf_results k with
            | Ok v => Ok v
            | _ => dict_get metric_results k
            end.
Proof.
  cbv zeta.
  assert (H : compute (base := example_base) tt example_data None tt simple
                "tokens" "ner_tags" " " false fresh_world
              = (Ok [("examples", 1); ("total_time_in_seconds", 1)],
                 snd (compute (base := example_base) tt example_data None tt simple
                        "tokens" "ner_tags" " " false fresh_world)))
    by (vm_compute; reflexivity).
  split; [exact H|].
  destruct (compute_uncached_result tt example_data None tt simple
              "tokens" "ner_tags" " " fresh_world _ _ H)
    as (data' & references & pipe_inputs & pipe & metric' & rows & words & labels
        & metric_results & perf_results
        & H1 & H2 & H3 & H4 & H5 & H6 & H7 & H8 & H9 & H10).
  simpl in H1. injection H1 as <-.
  vm_compute in H2. injection H2 as <- <-.
  simpl in H3. injection H3 as <-.
  simpl in H4. injection H4 as <-.
  vm_compute in H5. injection H5 as <-.
  vm_compute in H6. injection H6 as <-.
  simpl in H8.
  exists labels, metric_results, perf_results.
  split; [exact H7|].
  assert (Hlabels : labels = [["O"]]).
  { vm_compute in H7. now injection H7 as <-. }
  subst labels. simpl in H8. injection H8 as <-.
  split; [reflexivity|]. split; [exact H9|].
  apply H10.
  - repeat constructor; simpl; tauto.
  - subst perf_results. repeat constructor; simpl; tauto.
Defined.

(** X15: an exception that [prepare_data] raises for the loaded dataset is
    raised by [compute], with or without the cache, before the pipeline is
    prepared: no call is made to the pipeline, the clock is not read and no
    cache file is touched. *)
Theorem compute_invalid_data {M Metric V : Type} {base : EvaluatorBase M Metric V}
  (model : M) (data data' : Dataset) (split : option string) (metric : Metric)
  (resampling : Resampling) (input_column label_column join_by : string)
  (cache_if_possible : bool) (e : exn) (w : World V) :
  load_data data split = Ok data' ->
  prepare_data data' input_column label_column join_by = Raise e ->
  compute model data split metric resampling input_column label_column join_by
    cache_if_possible w
  = (Raise e, w).
Proof.
  intros Hdata Hprep. unfold compute.
  rewrite (pbind_run _ _ w w data') by now apply lift_run.
  unfold pbind, lift. now rewrite Hprep.
Qed.

(** The format that the class documentation gives as not accepted. *)
Lemma compute_invalid_data_witness :
  compute (base := example_base) tt flat_data None tt simple
    "tokens" "ner_tags" " " true fresh_world
  = (Raise ValueError, fresh_world).
Proof.
  exact (compute_invalid_data (base := example_base) tt flat_data flat_data None tt
           simple "tokens" "ner_tags" " " true ValueError fresh_world
           eq_refl eq_refl).
Defined.

(** X16: with [cache_if_possible] set, when the data, the pipeline and the
    metric are accepted and a file exists under the name made of the canary
    hash, the fingerprint of the dataset and the hash of the metric,
    [compute] returns the first row of the table in that file, whatever the
    table holds, or raises [IndexError] when a column of it has no row.  The
    metric is not computed, the inputs of the dataset are not passed to the
    pipeline, and the files are left as they are. *)
Theorem compute_cache_hit {M Metric V : Type} {base : EvaluatorBase M Metric V}
  (model : M) (data data' : Dataset) (split : option string) (metric metric' : Metric)
  (resampling : Resampling) (input_column label_column join_by : string)
  (references canary_references : list value) (pipe_inputs canary_inputs : list string)
  (pipe : Pipeline) (row : list Prediction.t) (p : Prediction.t)
  (table : Table V) (w : World V) :
  load_data data split = Ok data' ->
  prepare_data data' input_column label_column join_by
  = Ok (references, pipe_inputs) ->
  super_prepare_pipeline model = Ok pipe ->
  getitem (pipe dummy_input) 0 = Ok row ->
  getitem row 0 = Ok p ->
  prepare_metric metric = Ok metric' ->
  prepare_data (canary_dataset task input_column label_column)
    input_column label_column join_by
  = Ok (canary_references, canary_inputs) ->
  dict_get (files w) (cache_file (md5_dill (pipe canary_inputs)) data' metric')
  = Ok table ->
  exists w',
    compute model data split metric resampling input_column label_column join_by
      true w
    = (first_row table, w')
    /\ files w' = files w
    /\ calls w' = calls w ++ [dummy_input; canary_inputs].
Proof.
  intros Hdata Hprep Hsuper Hrow Hp Hmetric Hcanary Hfile.
  eexists. split; [|split].
  - unfold compute.
    rewrite (pbind_run _ _ w w data') by now apply lift_run.
    rewrite (pbind_run _ _ w w (references, pipe_inputs)) by now apply lift_run.
    rewrite (pbind_run _ _ w _ pipe (prepare_pipeline_run _ _ _ _ _ Hsuper Hrow Hp)).
    rewrite (pbind_run _ _ _ (record_call dummy_input w) metric')
      by now apply lift_run.
    cbv zeta.
    rewrite (pbind_run _ _ _ _ _
               (compute_canary_hash_run pipe _ _ _ _ _ _ Hcanary)).
    unfold pbind, path_exists, read_table, lift. cbn [files record_call]. rewrite Hfile.
    cbn [files record_call]. rewrite Hfile. reflexivity.
  - reflexivity.
  - simpl. now rewrite <- app_assoc.
Qed.

(** A table that no metric has written, with two rows: the first is returned. *)
Lemma compute_cache_hit_witness :
  exists w',
    compute (base := example_base) tt example_data None tt simple
      "tokens" "ner_tags" " " true stale_world
    = (Ok [("stale", 42)], w')
    /\ files w' = files stale_world
    /\ calls w' = calls stale_world ++ [dummy_input; ["Felix sings"]].
Proof.
  exact (compute_cache_hit (base := example_base) tt example_data example_data
           None tt tt simple "tokens" "ner_tags" " "
           [VList [VStr "B-LOC"]] [VList [VStr "O"; VStr "O"]]
           ["New"] ["Felix sings"] example_pipe [tok "O" 0] (tok "O" 0)
           [("stale", [42; 43])] stale_world
           eq_refl eq_refl eq_refl eq_refl eq_refl eq_refl eq_refl eq_refl).
Defined.

(** X17: the name of the cache file tells the canary hash, the fingerprint
    of the dataset and the hash of the metric apart as long as the canary hash
    and the fingerprint hold no [-]: two names made in the same cache directory
    are equal only when the three parts are. *)
Theorem cache_file_injective {M Metric V : Type} {base : EvaluatorBase M Metric V}
  (canary_hash1 canary_hash2 : string) (data1 data2 : Dataset)
  (metric1 metric2 : Metric) :
  dash_free canary_hash1 -> dash_free canary_hash2 ->
  dash_free (_fingerprint data1) -> dash_free (_fingerprint data2) ->
  cache_file canary_hash1 data1 metric1 = cache_file canary_hash2 data2 metric2 ->
  canary_hash1 = canary_hash2
  /\ _fingerprint data1 = _fingerprint data2
  /\ metric_hash metric1 = metric_hash metric2.
Proof.
  intros Hh1 Hh2 Hf1 Hf2 H. unfold cache_file in H.
  apply path_join_cancel in H. simpl in H.
  injection H as H.
  apply (dash_split _ _ _ _ Hh1 Hh2) in H. destruct H as [-> H].
  apply (dash_split _ _ _ _ Hf1 Hf2) in H. destruct H as [-> H].
  apply append_cancel_r in H. now repeat split.
Qed.

Lemma cache_file_injective_witness :
  "0cc175b9c0f1b6a831c399e269772661" = "0cc175b9c0f1b6a831c399e269772661"
  /\ _fingerprint example_data = _fingerprint example_data
  /\ metric_hash (EvaluatorBase := example_base) tt
     = metric_hash (EvaluatorBase := example_base) tt.
Proof.
  apply (cache_file_injective (base := example_base)
           "0cc175b9c0f1b6a831c399e269772661" "0cc175b9c0f1b6a831c399e269772661"
           example_data example_data tt tt).
  - unfold dash_free. simpl. intuition discriminate.
  - unfold dash_free. simpl. intuition discriminate.
  - unfold dash_free. simpl. intuition discriminate.
  - unfold dash_free. simpl. intuition discriminate.
  - reflexivity.
Defined.

(** Without that condition two different keys can share a name. *)
Example cache_file_collision :
  cache_file (base := example_base) "a-b"
    {| features := []; columns := []; _fingerprint := "c" |} tt
  = cache_file (base := example_base) "a"
      {| features := []; columns := []; _fingerprint := "b-c" |} tt.
Proof. reflexivity. Qed.

(** X18: when the pipeline gives no row, or an empty first row, for the
    input of the check of [prepare_pipeline], [compute] raises [IndexError]
    right after that one call: the clock is not read, no cache file is read or
    written and the inputs of the dataset are not passed to the pipeline. *)
Theorem compute_empty_check_output {M Metric V : Type}
  {base : EvaluatorBase M Metric V}
  (model : M) (data data' : Dataset) (split : option string) (metric : Metric)
  (resampling : Resampling) (input_column label_column join_by : string)
  (references : list value) (pipe_inputs : list string) (pipe : Pipeline)
  (cache_if_possible : bool) (w : World V) :
  load_data data split = Ok data' ->
  prepare_data data' input_column label_column join_by
  = Ok (references, pipe_inputs) ->
  super_prepare_pipeline model = Ok pipe ->
  pipe dummy_input = [] \/ (exists rest, pipe dummy_input = [] :: rest) ->
  compute model data split metric resampling input_column label_column join_by
    cache_if_possible w
  = (Raise IndexError, record_call dummy_input w).
Proof.
  intros Hdata Hprep Hsuper Hout. unfold compute.
  rewrite (pbind_run _ _ w w data') by now apply lift_run.
  rewrite (pbind_run _ _ w w (references, pipe_inputs)) by now apply lift_run.
  assert (Hpipe : prepare_pipeline model w
                  = (Raise IndexError, record_call dummy_input w)).
  { unfold prepare_pipeline.
    rewrite (pbind_run _ _ w w pipe) by now apply lift_run.
    rewrite (pbind_run _ _ w (record_call dummy_input w) (pipe dummy_input))
      by reflexivity.
    unfold pbind, lift, getitem. destruct Hout as [-> | (rest & ->)]; reflexivity. }
  unfold pbind at 1. now rewrite Hpipe.
Qed.

(** A pipeline that returns nothing. *)
Lemma compute_empty_check_output_witness :
  let silent : EvaluatorBase unit unit Z := {|
    task := task (EvaluatorBase := example_base);
    cache_dir := cache_dir (EvaluatorBase := example_base);
    load_data := load_data (EvaluatorBase := example_base);
    super_prepare_data := super_prepare_data (EvaluatorBase := example_base);
    super_prepare_pipeline := fun _ => Ok (fun _ => []);
    prepare_metric := prepare_metric (EvaluatorBase := example_base);
    metric_hash := metric_hash (EvaluatorBase := example_base);
    compute_metric := compute_metric (EvaluatorBase := example_base);
    compute_time_perf := compute_time_perf (EvaluatorBase := example_base);
    canary_dataset := canary_dataset (EvaluatorBase := example_base);
    md5_dill := md5_dill (EvaluatorBase := example_base);
    md5_dill_hexdigest := md5_dill_hexdigest (EvaluatorBase := example_base)
  |} in
  compute (base := silent) tt example_data None tt simple
    "tokens" "ner_tags" " " true fresh_world
  = (Raise IndexError, record_call dummy_input fresh_world).
Proof.
  intros silent.
  apply (compute_empty_check_output (base := silent) tt example_data example_data
           None tt simple "tokens" "ner_tags" " "
           [VList [VStr "B-LOC"]] ["New"] (fun _ => []) true fresh_world
           eq_refl eq_refl eq_refl).
  now left.
Defined.

(** X19: predictions added at the end of the prediction lists never change
    the labels of a call that returns: the cursor only moves forward, and
    every word of that call found its prediction before them. *)
Theorem predictions_processor_trailing
  (predictions predictions' : list (list Prediction.t))
  (words : list (list string)) (join_by : string) (preds : list (list string)) :
  Forall2 (fun prediction prediction' => exists more, prediction' = prediction ++ more)
    predictions predictions' ->
  predictions_processor predictions words join_by = Ok preds ->
  predictions_processor predictions' words join_by = Ok preds.
Proof.
  intros H. rewrite !predictions_processor_spec. now apply align_rows_trailing.
Qed.

Lemma predictions_processor_trailing_witness :
  predictions_processor [[tok "B-LOC" 0; tok "I-LOC" 4]] [["New"; "York"]] " "
  = Ok [["B-LOC"; "I-LOC"]]
  /\ predictions_processor [[tok "B-LOC" 0; tok "I-LOC" 4] ++ [tok "X" 2; tok "Y" 0]]
       [["New"; "York"]] " "
     = Ok [["B-LOC"; "I-LOC"]].
Proof.
  split; [reflexivity|].
  apply (predictions_processor_trailing
           [[tok "B-LOC" 0; tok "I-LOC" 4]]
           [[tok "B-LOC" 0; tok "I-LOC" 4] ++ [tok "X" 2; tok "Y" 0]]).
  - constructor; [now exists [tok "X" 2; tok "Y" 0] | constructor].
  - reflexivity.
Defined.

(** X20: when the labels are in a [Sequence] of a feature that is not a
    [ClassLabel] and whose [dtype] name does not start with ["int"], and
    [prepare_data] returns, the references are the label column as the
    dataset holds it, whatever the values in it are. *)
Theorem prepare_data_labels_unchanged {M Metric V : Type}
  {base : EvaluatorBase M Metric V}
  (data : Dataset) (input_column label_column join_by : string)
  (feature : Feature) (references : list value) (pipeline_inputs : list string) :
  dict_get (features data) label_column = Ok (Sequence feature) ->
  (forall names, feature <> ClassLabel names) ->
  String.prefix "int" (dtype feature) = false ->
  prepare_data data input_column label_column join_by
  = Ok (references, pipeline_inputs) ->
  dict_get (columns data) label_column = Ok references.
Proof.
  intros Hl Hno Hp H. apply prepare_data_ok_inv in H.
  destruct H as (fi & feature' & rows & _ & Hl' & Href & _).
  rewrite Hl in Hl'. injection Hl' as <-.
  now rewrite (references_of_other _ _ _ Hno Hp) in Href.
Qed.

(** Labels given as strings. *)
Lemma prepare_data_labels_unchanged_witness :
  let data := {|
    features := [("tokens", Sequence (Value "string"));
                 ("ner_tags", Sequence (Value "string"))];
    columns := [("tokens", [VList [VStr "Felix"; VStr "sings"]]);
                ("ner_tags", [VList [VStr "PER"; VStr "O"]])];
    _fingerprint := "d3b0"
  |} in
  prepare_data (base := example_base) data "tokens" "ner_tags" " "
  = Ok ([VList [VStr "PER"; VStr "O"]], ["Felix sings"])
  /\ dict_get (columns data) "ner_tags" = Ok [VList [VStr "PER"; VStr "O"]].
Proof.
  intros data. split; [reflexivity|].
  apply (prepare_data_labels_unchanged (base := example_base) data
           "tokens" "ner_tags" " " (Value "string") _ ["Felix sings"] eq_refl).
  - discriminate.
  - reflexivity.
  - reflexivity.
Defined.
